(** * The retrieval engine and the context assembly of [src/service.ts]

    A shallow embedding of the class [VectorStore] (chunking, the
    feature-rank embedding, the similarity score, the query with its
    per-URL de-duplication, the store life cycle) and of the pure parts of
    [ArchiveSearchService]: [trimToSentenceBoundary],
    [extractCompleteSentences], the assembly of the context in
    [getRelevantContentWithVectorSearch], the cleaning of an article in
    [scrapeContent] and the extraction of URLs in [getTopArchiveUrls].

    Conventions of the embedding.
    - A JavaScript [number] is an IEEE 754 binary64 value: Rocq's primitive
      [float], whose operations round to nearest-even exactly as the
      JavaScript operators do.  A decimal literal denotes the nearest
      binary64 value in both languages.
    - A JavaScript string is a sequence of code units; the embedding covers
      the texts whose code units are below 256, as a [string] of [ascii].
    - An array length, an index and a result count are natural numbers; an
      index that can be [-1] is an integer.
    - The store is an object with mutable fields: every method takes the
      state of the store and returns the new state with its result.
    - What a method reads from the network (a page, a parsed article, the
      scraped search results) is an argument of its embedding. *)

From Stdlib Require Import List String Ascii Bool Arith ZArith NArith Lia.
From Stdlib Require Import Floats Uint63 DecimalString.
From Stdlib Require Import Permutation.
Import ListNotations.

Set Warnings "-inexact-float".

Local Open Scope string_scope.
Local Open Scope list_scope.
Local Open Scope nat_scope.

(** ** JavaScript built-ins used by the source *)

Module JS.

Definition chars (s : string) : list ascii := list_ascii_of_string s.
Definition text (l : list ascii) : string := string_of_list_ascii l.

Definition code (c : ascii) : nat := nat_of_ascii c.

(** [\w] of a regular expression without the unicode flag: [A-Za-z0-9_]. *)
Definition isWordChar (c : ascii) : bool :=
  let n := code c in
  ((65 <=? n) && (n <=? 90)) || ((97 <=? n) && (n <=? 122))
  || ((48 <=? n) && (n <=? 57)) || (n =? 95).

(** [\s], and the characters [String.prototype.trim] strips: among the code
    units below 256 these are TAB, LF, VT, FF, CR, SPACE and NBSP. *)
Definition isSpaceChar (c : ascii) : bool :=
  let n := code c in
  ((9 <=? n) && (n <=? 13)) || (n =? 32) || (n =? 160).

Definition isNewline (c : ascii) : bool := code c =? 10.

(** The class [[.!?]] of the sentence pattern. *)
Definition isTerminator (c : ascii) : bool :=
  let n := code c in (n =? 46) || (n =? 33) || (n =? 63).

(** [String.prototype.toLowerCase] on code units below 256: [A-Z] and the
    Latin-1 capitals (all of 192..222 but the multiplication sign 215) move
    up by 32. *)
Definition lowerChar (c : ascii) : ascii :=
  let n := code c in
  if ((65 <=? n) && (n <=? 90)) || ((192 <=? n) && (n <=? 222) && negb (n =? 215))
  then ascii_of_nat (n + 32) else c.

Definition toLowerCase (s : string) : string := text (map lowerChar (chars s)).

Fixpoint dropSpaces (l : list ascii) : list ascii :=
  match l with
  | c :: l' => if isSpaceChar c then dropSpaces l' else l
  | [] => []
  end.

Definition trimChars (l : list ascii) : list ascii :=
  rev (dropSpaces (rev (dropSpaces l))).

(** [s.trim()] *)
Definition trim (s : string) : string := text (trimChars (chars s)).

(** [s.split(re)] for a pattern [re] that matches the maximal runs of at
    least [k] characters of the class [sep] ([/\s+/] with [k = 1],
    [/\n{2,}/] with [k = 2]).  [cur] is the piece being read and [run] the
    run of class characters just read, both reversed.  A shorter run stays
    in its piece; a run at the start or at the end of the string leaves an
    empty piece there; the empty string gives one empty piece. *)
Fixpoint splitRuns (sep : ascii -> bool) (k : nat) (l cur run : list ascii)
  : list (list ascii) :=
  match l with
  | [] => if k <=? List.length run then [rev cur; []] else [rev (run ++ cur)]
  | c :: l' =>
      if sep c then splitRuns sep k l' cur (c :: run)
      else if k <=? List.length run
           then rev cur :: splitRuns sep k l' [c] []
           else splitRuns sep k l' (c :: run ++ cur) []
  end.

(** [s.split(/\s+/)] *)
Definition splitSpaces (s : string) : list string :=
  map text (splitRuns isSpaceChar 1 (chars s) [] []).

(** [s.split(/\n{2,}/)] *)
Definition splitBlankLines (s : string) : list string :=
  map text (splitRuns isNewline 2 (chars s) [] []).

(** [s.match(/[^.!?]+[.!?]+/g) || []]: from left to right, each maximal run
    of characters other than terminators that is followed by a terminator,
    with the maximal run of terminators after it.  Terminators with no such
    run before them and a last run with no terminator after it belong to no
    match.  [body] and [term] are the two runs being read, reversed. *)
Fixpoint matchSentencesFrom (l body term : list ascii) : list (list ascii) :=
  match l with
  | [] => match term with
          | [] => []
          | _ :: _ => [rev (term ++ body)]
          end
  | c :: l' =>
      if isTerminator c then
        match body with
        | [] => matchSentencesFrom l' [] []
        | _ :: _ => matchSentencesFrom l' body (c :: term)
        end
      else
        match term with
        | [] => matchSentencesFrom l' (c :: body) []
        | _ :: _ => rev (term ++ body) :: matchSentencesFrom l' [c] []
        end
  end.

Definition matchSentences (s : string) : list string :=
  map text (matchSentencesFrom (chars s) [] []).

(** [arr.join(sep)] *)
Fixpoint join (sep : string) (l : list string) : string :=
  match l with
  | [] => ""
  | [s] => s
  | s :: l' => (s ++ sep ++ join sep l')%string
  end.

(** [arr.slice(i, i + n)] *)
Definition slice {A : Type} (i n : nat) (l : list A) : list A :=
  firstn n (skipn i l).

(** [s.startsWith(p)] *)
Definition startsWith (s p : string) : bool := String.prefix p s.

(** The last index below [n] at which [s] holds [c], or [-1]. *)
Fixpoint lastIndexBelow (c : ascii) (s : string) (n : nat) : Z :=
  match n, s with
  | S n', String d s' =>
      let r := lastIndexBelow c s' n' in
      if (0 <=? r)%Z then (r + 1)%Z
      else if Ascii.eqb d c then 0%Z else (-1)%Z
  | _, _ => (-1)%Z
  end.

(** [s.lastIndexOf(c, fromIndex)] for a one-character [c]: the search runs
    backwards from [fromIndex], that index included. *)
Definition lastIndexOf (c : ascii) (s : string) (fromIndex : nat) : Z :=
  lastIndexBelow c s (S fromIndex).

(** [s.substring(0, n)] *)
Definition substring0 (s : string) (n : nat) : string := String.substring 0 n s.

(** [arr.findIndex(p)] *)
Fixpoint findIndexFrom {A : Type} (p : A -> bool) (l : list A) (i : nat) : Z :=
  match l with
  | [] => (-1)%Z
  | x :: l' => if p x then Z.of_nat i else findIndexFrom p l' (S i)
  end.

Definition findIndex {A : Type} (p : A -> bool) (l : list A) : Z :=
  findIndexFrom p l 0.

(** A count (an array length, an index) as a [number]. *)
Definition ofNat (n : nat) : float := PrimFloat.of_uint63 (Uint63.of_Z (Z.of_nat n)).

(** [x !== x] *)
Definition isNaN (x : float) : bool := negb (PrimFloat.eqb x x).

(** [Array.prototype.sort(cmp)].  The sort is stable; a comparator result
    above zero puts the second argument first, and a result that is zero or
    NaN leaves the two in their order.  With a consistent comparator every
    stable sort returns this list.  With an inconsistent one (a NaN among the
    keys) the language leaves the order to the engine; the list below is then
    the order of an insertion from the right, which need not be the order
    that the engine returns.  What is proved below of every input does not
    depend on which order it is (membership, lengths, thresholds, the
    equality of two runs), and the first result of a query is treated for an
    arbitrary sort ([queryWith]).  The two evaluations with a NaN among the
    keys are made at arrays that are one run in the order of the comparator
    already, which this insertion and the run detection of V8 both leave as
    they are. *)
Fixpoint insertSorted {A : Type} (cmp : A -> A -> float) (x : A) (l : list A) : list A :=
  match l with
  | [] => [x]
  | y :: l' => if PrimFloat.ltb 0 (cmp x y) then y :: insertSorted cmp x l' else x :: l
  end.

Definition sortBy {A : Type} (cmp : A -> A -> float) (l : list A) : list A :=
  fold_right (insertSorted cmp) [] l.

(** [arr[i] = v] for an index inside the array. *)
Fixpoint setAt {A : Type} (i : nat) (v : A) (l : list A) : list A :=
  match l, i with
  | [], _ => []
  | _ :: l', O => v :: l'
  | x :: l', S i' => x :: setAt i' v l'
  end.

End JS.

(** ** A plain object used as a map from words to counts

    [createEmbedding] keeps its feature counts in an object literal
    ([const features: Record<string, number> = {}]).  Such an object
    - lists its own keys with the array indices first, in ascending numeric
      order, and then the other keys in the order of their creation;
    - answers a read of a key it does not own from [Object.prototype]. *)

Module Obj.

(** What a property can hold here: a number, or the text that [+] builds
    once one operand is not a number. *)
Inductive value : Type :=
| VNum (x : float)
| VStr (s : string).

Definition t : Type := list (string * value).

Definition isDigit (c : ascii) : bool :=
  let n := JS.code c in (48 <=? n) && (n <=? 57).

Definition digitsValue (l : list ascii) : N :=
  fold_left (fun acc c => (10 * acc + N.of_nat (JS.code c - 48))%N) l 0%N.

(** An array index is the canonical decimal text of an integer from [0] to
    [2^32 - 2]. *)
Definition arrayIndex (k : string) : option N :=
  match JS.chars k with
  | [] => None
  | c :: rest =>
      if forallb isDigit (c :: rest)
         && (negb (JS.code c =? 48) || (List.length rest =? 0))
         && (List.length (c :: rest) <=? 10)
         && (digitsValue (c :: rest) <=? 4294967294)%N
      then Some (digitsValue (c :: rest)) else None
  end.

Fixpoint getOwn (k : string) (o : t) : option value :=
  match o with
  | [] => None
  | (k', v) :: o' => if String.eqb k' k then Some v else getOwn k o'
  end.

(** A new key that is not an array index goes last. *)
Fixpoint putNamed (k : string) (v : value) (o : t) : t :=
  match o with
  | [] => [(k, v)]
  | (k', v') :: o' =>
      if String.eqb k' k then (k, v) :: o' else (k', v') :: putNamed k v o'
  end.

(** A new array index goes before the first key that is a larger index or no
    index at all. *)
Fixpoint putIndex (i : N) (k : string) (v : value) (o : t) : t :=
  match o with
  | [] => [(k, v)]
  | (k', v') :: o' =>
      if String.eqb k' k then (k, v) :: o'
      else match arrayIndex k' with
           | Some j => if (j <? i)%N then (k', v') :: putIndex i k v o'
                       else (k, v) :: (k', v') :: o'
           | None => (k, v) :: (k', v') :: o'
           end
  end.

(** Creating or overwriting an own property. *)
Definition define (k : string) (v : value) (o : t) : t :=
  match arrayIndex k with
  | Some i => putIndex i k v o
  | None => putNamed k v o
  end.

(** [Object.fromEntries(entries)] *)
Definition fromEntries (entries : list (string * value)) : t :=
  fold_left (fun o kv => define (fst kv) (snd kv) o) entries [].

(** [Object.entries(o)] *)
Definition entries (o : t) : list (string * value) := o.

(** What [Object.prototype] answers for a key the object does not own, as
    the text that [+] turns it into.  The keys read here are words of a
    cleaned text, so they hold no capital letter, and of the property names
    of [Object.prototype] only [constructor] (the function [Object]) and
    [__proto__] (the accessor, which answers [Object.prototype] itself) are
    written without one. *)
Definition inherited (k : string) : option string :=
  if String.eqb k "constructor" then Some "function Object() { [native code] }"
  else if String.eqb k "__proto__" then Some "[object Object]"
  else None.

(** [o[k]]: the own property, else the inherited one, else [undefined]. *)
Definition get (k : string) (o : t) : option value :=
  match getOwn k o with
  | Some v => Some v
  | None => option_map VStr (inherited k)
  end.

(** [o[k] = v]: the accessor [__proto__] ignores a value that is neither an
    object nor [null]; any other key becomes an own property. *)
Definition set (k : string) (v : value) (o : t) : t :=
  if String.eqb k "__proto__" then o else define k v o.

(** [ToNumber]: a text built from the source text of a function is no
    numeric literal. *)
Definition toNumber (v : value) : float :=
  match v with
  | VNum x => x
  | VStr _ => nan
  end.

(** [(o[k] || 0) + inc], where [incText] is the decimal text of [inc]. *)
Definition orZeroPlus (cur : option value) (inc : float) (incText : string) : value :=
  match cur with
  | None => VNum (0 + inc)
  | Some (VNum x) =>
      if PrimFloat.eqb x 0 || JS.isNaN x then VNum (0 + inc) else VNum (x + inc)
  | Some (VStr s) =>
      if String.eqb s "" then VNum (0 + inc) else VStr (s ++ incText)
  end.

(** [o[k] = (o[k] || 0) + inc] *)
Definition bump (k : string) (inc : float) (incText : string) (o : t) : t :=
  set k (orZeroPlus (get k o) inc incText) o.

End Obj.

(** ** [class VectorStore] *)

Module VectorStore.

Record Metadata : Type := { url : string; title : string }.

(** An element of [this.documents]. *)
Record Entry : Type := {
  id : string;
  content : string;
  metadata : Metadata;
  embedding : list float
}.

(** An element of the argument of [addDocuments]. *)
Record Document : Type := {
  doc_url : string;
  doc_title : string;
  doc_content : string
}.

(** An element of the result of [queryRelevantContent]. *)
Record Scored : Type := {
  s_content : string;
  s_metadata : Metadata;
  score : float
}.

(** The fields of the store. *)
Record Store : Type := {
  documents : list Entry;
  initialized : bool;
  stopWords : list string
}.

(** The store as the constructor leaves it. *)
Definition fresh : Store := {|
  documents := [];
  initialized := false;
  stopWords :=
    ["the"; "and"; "or"; "of"; "to"; "a"; "in"; "that"; "it"; "is"; "was"; "for";
     "on"; "with"; "as"; "be"; "at"; "this"; "but"; "by"; "from"; "an"; "not";
     "what"; "all"; "are"; "were"; "when"; "we"; "you"; "they"; "have"; "had"]
|}.

(** [set.has(w)] *)
Definition has (set : list string) (w : string) : bool :=
  existsb (String.eqb w) set.

(** [new Set(arr)]: the distinct elements, in the order of their first
    occurrence. *)
Definition newSet (arr : list string) : list string :=
  fold_left (fun set w => if has set w then set else set ++ [w]) arr [].

(** [initialize()] *)
Definition initialize (st : Store) : Store * bool :=
  ({| documents := []; initialized := true; stopWords := stopWords st |}, true).

(** [cleanText(text)]: lower case, every character outside [\w] and [\s]
    replaced by a space, every run of [\s] replaced by one space, trimmed. *)
Definition replaceNonWord (l : list ascii) : list ascii :=
  map (fun c => if JS.isWordChar c || JS.isSpaceChar c then c else " "%char) l.

Fixpoint collapseSpaces (l : list ascii) (inRun : bool) : list ascii :=
  match l with
  | [] => []
  | c :: l' =>
      if JS.isSpaceChar c
      then if inRun then collapseSpaces l' true else " "%char :: collapseSpaces l' true
      else c :: collapseSpaces l' false
  end.

Definition cleanText (text : string) : string :=
  JS.trim (JS.text (collapseSpaces (replaceNonWord (JS.chars (JS.toLowerCase text))) false)).

(** The test of both loops of [createEmbedding]. *)
Definition significant (st : Store) (word : string) : bool :=
  (2 <? String.length word) && negb (has (stopWords st) word).

(** The loop over the unigrams. *)
Definition countUnigrams (st : Store) (words : list string) (features : Obj.t) : Obj.t :=
  fold_left
    (fun features word =>
       if significant st word then Obj.bump word 1 "1" features else features)
    words features.

(** The loop over the pairs [words[i], words[i + 1]]. *)
Definition countBigrams (st : Store) (words : list string) (features : Obj.t) : Obj.t :=
  fold_left
    (fun features pair =>
       let '(word1, word2) := pair in
       if (2 <? String.length word1) && (2 <? String.length word2)
          && negb (has (stopWords st) word1) && negb (has (stopWords st) word2)
       then Obj.bump (word1 ++ "_" ++ word2)%string 0.8 "0.8" features
       else features)
    (combine words (tl words)) features.

(** [1.0 - (Math.min(firstPosition, 100) / 100) * 0.5] *)
Definition posWeight (firstPosition : nat) : float :=
  (1 - (JS.ofNat (Nat.min firstPosition 100) / 100) * 0.5)%float.

(** The callback of the positional weighting. *)
Definition weigh (words : list string) (entry : string * Obj.value) : string * Obj.value :=
  let '(feature, count) := entry in
  let firstPosition :=
    JS.findIndex
      (fun w => String.eqb w feature || JS.startsWith feature (w ++ "_")%string) words in
  if negb (firstPosition =? -1)%Z
  then (feature, Obj.VNum (Obj.toNumber count * posWeight (Z.to_nat firstPosition))%float)
  else (feature, count).

(** The comparator [(a, b) => b[1] - a[1]]. *)
Definition byWeight (a b : string * Obj.value) : float :=
  (Obj.toNumber (snd b) - Obj.toNumber (snd a))%float.

(** [posWeightedFeatures[feature] / normalizer], where a missing property
    reads [undefined], which divides to NaN. *)
Definition component (posWeightedFeatures : Obj.t) (normalizer : float) (feature : string) : float :=
  match Obj.get feature posWeightedFeatures with
  | Some v => (Obj.toNumber v / normalizer)%float
  | None => nan
  end.

(** [createEmbedding(text)] *)
Definition createEmbedding (st : Store) (text : string) : list float :=
  let cleanedText := cleanText text in
  let words := JS.splitSpaces cleanedText in
  let features := countBigrams st words (countUnigrams st words []) in
  let posWeightedFeatures := Obj.fromEntries (map (weigh words) (Obj.entries features)) in
  let topFeatures :=
    map fst (JS.slice 0 384 (JS.sortBy byWeight (Obj.entries posWeightedFeatures))) in
  let embedding := repeat 0%float 384 in
  let normalizer := JS.ofNat (if List.length words =? 0 then 1 else List.length words) in
  fold_left
    (fun embedding fi =>
       JS.setAt (snd fi) (component posWeightedFeatures normalizer (fst fi)) embedding)
    (combine topFeatures (seq 0 (List.length topFeatures))) embedding.

(** The loop of [cosineSimilarity]: the three running sums over the indices
    below both lengths. *)
Definition sums (vecA vecB : list float) : float * float * float :=
  fold_left
    (fun acc ab =>
       let '(dotProduct, normA, normB) := acc in
       let '(a, b) := ab in
       (dotProduct + a * b, normA + a * a, normB + b * b)%float)
    (combine vecA vecB) (0, 0, 0)%float.

(** [vec.filter(v => v > 0).length] *)
Definition nonZero (vec : list float) : nat :=
  List.length (filter (fun v => PrimFloat.ltb 0 v) vec).

(** [cosineSimilarity(vecA, vecB)] *)
Definition cosineSimilarity (vecA vecB : list float) : float :=
  let '(dotProduct, normA, normB) := sums vecA vecB in
  if PrimFloat.eqb normA 0 || PrimFloat.eqb normB 0 then 0%float
  else
    let similarity := (dotProduct / (PrimFloat.sqrt normA * PrimFloat.sqrt normB))%float in
    let nonZeroA := nonZero vecA in
    let nonZeroB := nonZero vecB in
    let lengthRatio :=
      (JS.ofNat (Nat.min nonZeroA nonZeroB)
       / JS.ofNat (Nat.max (Nat.max nonZeroA nonZeroB) 1))%float in
    (similarity * (0.7 + 0.3 * lengthRatio))%float.

(** *** Chunking, inside [addDocuments] *)

(** The variables of the loop over the sentences. *)
Record Grouping : Type := {
  chunks : list string;
  currentChunk : string;
  currentLength : nat
}.

(** The body of [sentences.forEach]. *)
Definition addSentence (g : Grouping) (sentence : string) : Grouping :=
  let trimmedSentence := JS.trim sentence in
  if String.length trimmedSentence <? 10 then g
  else
    let sentenceLength := List.length (JS.splitSpaces trimmedSentence) in
    if (0 <? currentLength g) && (200 <? currentLength g + sentenceLength)
    then {| chunks := if 50 <? String.length (currentChunk g)
                      then chunks g ++ [currentChunk g] else chunks g;
            currentChunk := trimmedSentence;
            currentLength := sentenceLength |}
    else {| chunks := chunks g;
            currentChunk :=
              (currentChunk g
               ++ (if String.eqb (currentChunk g) "" then "" else " ")
               ++ trimmedSentence)%string;
            currentLength := currentLength g + sentenceLength |}.

(** The branch taken when the sentence pattern matched. *)
Definition sentenceChunks (sentences : list string) : list string :=
  let g := fold_left addSentence sentences
             {| chunks := []; currentChunk := ""; currentLength := 0 |} in
  if 50 <? String.length (currentChunk g) then chunks g ++ [currentChunk g] else chunks g.

(** [content.split(/\n{2,}/).map(p => p.trim()).filter(p => p.length > 50)] *)
Definition paragraphChunks (content : string) : list string :=
  filter (fun p => 50 <? String.length p) (map JS.trim (JS.splitBlankLines content)).

(** The loop [for (i = 0; i < words.length; i += 200)]. *)
Definition wordChunks (content : string) : list string :=
  let words := JS.splitSpaces content in
  flat_map
    (fun j =>
       let chunk := JS.join " " (JS.slice (200 * j) 200 words) in
       if 50 <? String.length chunk then [chunk] else [])
    (seq 0 ((List.length words + 199) / 200)).

(** The [else] branch: paragraphs, then windows of 200 words. *)
Definition fallbackChunks (content : string) : list string :=
  let chunks := paragraphChunks content in
  if (List.length chunks <=? 1) && (500 <? String.length content)
  then wordChunks content
  else chunks.

(** The chunks of one document, before the title is added. *)
Definition chunkContent (content : string) : list string :=
  let sentences := JS.matchSentences content in
  if 0 <? List.length sentences then sentenceChunks sentences
  else fallbackChunks content.

(** [if (chunks.length > 0 && doc.title) chunks[0] = `${doc.title}. ${chunks[0]}`] *)
Definition withTitle (title : string) (chunks : list string) : list string :=
  match chunks with
  | first :: rest =>
      if String.eqb title "" then chunks else (title ++ ". " ++ first)%string :: rest
  | [] => []
  end.

(** The decimal text of an index. *)
Definition decimal (n : nat) : string := NilEmpty.string_of_uint (Nat.to_uint n).

(** The entries that one document adds to [this.documents]. *)
Definition entriesOf (st : Store) (docIndex : nat) (doc : Document) : list Entry :=
  let chunks := withTitle (doc_title doc) (chunkContent (doc_content doc)) in
  map
    (fun ci =>
       {| id := ("doc" ++ decimal docIndex ++ "_chunk" ++ decimal (snd ci))%string;
          content := fst ci;
          metadata := {| url := doc_url doc; title := doc_title doc |};
          embedding := createEmbedding st (fst ci) |})
    (combine chunks (seq 0 (List.length chunks))).

(** [addDocuments(documents)] *)
Definition addDocuments (st : Store) (docs : list Document) : Store * bool :=
  let '(st1, success) := if initialized st then (st, true) else initialize st in
  if negb success then (st1, false)
  else
    (fold_left
       (fun s di =>
          {| documents := documents s ++ entriesOf s (snd di) (fst di);
             initialized := initialized s;
             stopWords := stopWords s |})
       (combine docs (seq 0 (List.length docs))) st1,
     true).

(** *** The query *)

(** [contentSimilarity(text1, text2)] *)
Definition contentSimilarity (text1 text2 : string) : float :=
  let words1 :=
    newSet (filter (fun w => 2 <? String.length w) (JS.splitSpaces (cleanText text1))) in
  let words2 :=
    newSet (filter (fun w => 2 <? String.length w) (JS.splitSpaces (cleanText text2))) in
  let commonWords := List.length (filter (has words2) words1) in
  let totalUniqueWords := List.length words1 + List.length words2 - commonWords in
  if 0 <? totalUniqueWords
  then (JS.ofNat commonWords / JS.ofNat totalUniqueWords)%float
  else 0%float.

Definition SIMILARITY_THRESHOLD : float := 0.275%float.

(** The comparator [(a, b) => b.score - a.score]. *)
Definition byScore (a b : Scored) : float := (score b - score a)%float.

(** The variables of the loop that removes duplicates. *)
Record Dedup : Type := {
  uniqueResults : list Scored;
  seenUrls : list string
}.

(** The body of [filteredResults.forEach]. *)
Definition consider (limit : nat) (d : Dedup) (result : Scored) : Dedup :=
  if negb (has (seenUrls d) (url (s_metadata result)))
  then {| uniqueResults := uniqueResults d ++ [result];
          seenUrls := seenUrls d ++ [url (s_metadata result)] |}
  else if List.length (uniqueResults d) <? limit
  then match find (fun r => String.eqb (url (s_metadata r)) (url (s_metadata result)))
                  (uniqueResults d) with
       | Some existingChunk =>
           let contentOverlap :=
             contentSimilarity (s_content existingChunk) (s_content result) in
           if PrimFloat.ltb contentOverlap 0.5
           then {| uniqueResults := uniqueResults d ++ [result]; seenUrls := seenUrls d |}
           else d
       | None => d
       end
  else d.

(** The scores of the stored chunks against the query, in storage order. *)
Definition similarities (st : Store) (queryText : string) : list Scored :=
  let queryEmbedding := createEmbedding st queryText in
  map
    (fun doc =>
       {| s_content := content doc;
          s_metadata := metadata doc;
          score := cosineSimilarity queryEmbedding (embedding doc) |})
    (documents st).

(** The part of [queryRelevantContent] after the two early returns. *)
Definition rank (st : Store) (queryText : string) (limit : nat) : list Scored :=
  let sorted := JS.sortBy byScore (similarities st queryText) in
  let filteredResults :=
    filter (fun item => PrimFloat.ltb SIMILARITY_THRESHOLD (score item)) sorted in
  let d := fold_left (consider limit) filteredResults
             {| uniqueResults := []; seenUrls := [] |} in
  JS.slice 0 limit (uniqueResults d).

(** [queryRelevantContent(queryText, limit)]; [limit] is a count of
    results. *)
Definition queryRelevantContent (st : Store) (queryText : string) (limit : nat)
  : Store * list Scored :=
  let '(st1, success) := if initialized st then (st, true) else initialize st in
  if negb success then (st1, [])
  else if List.length (documents st1) =? 0 then (st1, [])
  else (st1, rank st1 queryText limit).

Definition DEFAULT_LIMIT : nat := 5.

(** [close()] *)
Definition close (st : Store) : Store :=
  {| documents := []; initialized := false; stopWords := stopWords st |}.

End VectorStore.

(** ** [ArchiveSearchService.trimToSentenceBoundary] *)

Module ArchiveSearchService.

Definition trimToSentenceBoundary (text : string) (maxLength : nat) : string :=
  if String.length text <=? maxLength then text
  else
    let lastBoundary :=
      Z.max (Z.max (JS.lastIndexOf "." text maxLength)
                   (JS.lastIndexOf "!" text maxLength))
            (JS.lastIndexOf "?" text maxLength) in
    if (0 <? lastBoundary)%Z
    then JS.substring0 text (Z.to_nat (lastBoundary + 1))
    else JS.substring0 text maxLength.

Definition MAX_CONTEXT_LENGTH : nat := 4000.

(** [extractCompleteSentences(text)] *)
Definition extractCompleteSentences (text : string) : string :=
  let sentences := JS.matchSentences text in
  if List.length sentences =? 0 then text
  else JS.trim (JS.join " " (JS.slice 0 5 sentences)).

(** *** [getRelevantContentWithVectorSearch], from the scraped documents on

    The documents come from the network; what the method does with them is
    a function of the two lists of documents, of the query and of the store.
    A scraped document is read through its [url], [title] and [content]
    only.  The percentage that the method logs is not part of its result. *)

(** [ddgResults.some(r => r.url === u)] *)
Definition fromSearch (ddgResults : list VectorStore.Document) (u : string) : bool :=
  existsb (fun r => String.eqb (VectorStore.doc_url r) u) ddgResults.

(** The chunk that stands for a search result that did not rank. *)
Definition searchChunk (doc : VectorStore.Document) : VectorStore.Scored :=
  {| VectorStore.s_content := VectorStore.doc_content doc;
     VectorStore.s_metadata :=
       {| VectorStore.url := VectorStore.doc_url doc;
          VectorStore.title := ("DuckDuckGo: " ++ VectorStore.doc_title doc)%string |};
     VectorStore.score := 0.5%float |}.

(** [finalChunks] *)
Definition finalChunksOf (ddgResults : list VectorStore.Document)
  (relevantChunks : list VectorStore.Scored) : list VectorStore.Scored :=
  let ddgChunks :=
    filter (fun chunk =>
              fromSearch ddgResults (VectorStore.url (VectorStore.s_metadata chunk)))
           relevantChunks in
  if (List.length ddgChunks =? 0) && (0 <? List.length ddgResults)
  then JS.slice 0 3 relevantChunks ++ map searchChunk (JS.slice 0 2 ddgResults)
  else relevantChunks.

(** The key of a chunk in [groupedByDoc]. *)
Definition groupKey (ddgResults : list VectorStore.Document) (chunk : VectorStore.Scored)
  : string :=
  let isDuckDuckGo :=
    JS.startsWith (VectorStore.title (VectorStore.s_metadata chunk)) "DuckDuckGo:"
    || fromSearch ddgResults (VectorStore.url (VectorStore.s_metadata chunk)) in
  let sourcePrefix := if isDuckDuckGo then "DuckDuckGo|" else "" in
  (VectorStore.url (VectorStore.s_metadata chunk) ++ "|" ++ sourcePrefix
   ++ VectorStore.title (VectorStore.s_metadata chunk))%string.

(** [if (!acc[key]) acc[key] = []; acc[key].push(v)].  Every key holds the
    character [|], so it is no array index and no property of
    [Object.prototype]: the object lists its keys in the order of their
    creation, and a key it does not own reads [undefined]. *)
Fixpoint pushTo (key v : string) (acc : list (string * list string))
  : list (string * list string) :=
  match acc with
  | [] => [(key, [v])]
  | (k, vs) :: acc' =>
      if String.eqb k key then (k, vs ++ [v]) :: acc' else (k, vs) :: pushTo key v acc'
  end.

(** [finalChunks.reduce(..., {})] *)
Definition groupByDoc (ddgResults : list VectorStore.Document)
  (finalChunks : list VectorStore.Scored) : list (string * list string) :=
  fold_left
    (fun acc chunk =>
       pushTo (groupKey ddgResults chunk)
              (extractCompleteSentences (VectorStore.s_content chunk)) acc)
    finalChunks [].

(** [key.split('|')]; [cur] is the piece being read, reversed. *)
Fixpoint splitOn (sep : ascii) (l cur : list ascii) : list (list ascii) :=
  match l with
  | [] => [rev cur]
  | c :: l' =>
      if Ascii.eqb c sep then rev cur :: splitOn sep l' [] else splitOn sep l' (c :: cur)
  end.

(** [s.replace(/\n+/g, ' ')] *)
Fixpoint newlinesToSpace (l : list ascii) (inRun : bool) : list ascii :=
  match l with
  | [] => []
  | c :: l' =>
      if JS.isNewline c
      then if inRun then newlinesToSpace l' true else " "%char :: newlinesToSpace l' true
      else c :: newlinesToSpace l' false
  end.

(** What one group adds to [formattedContext]. *)
Definition renderGroup (sourceCounter : nat) (entry : string * list string) : string :=
  let '(key, contents) := entry in
  let parts := map JS.text (splitOn "|" (JS.chars key) []) in
  let isDuckDuckGo :=
    (2 <? List.length parts) && String.eqb (nth 1 parts "") "DuckDuckGo" in
  ("Source " ++ VectorStore.decimal sourceCounter ++ ": "
   ++ (if isDuckDuckGo then "Search Result" else "Article")
   ++ " "
   ++ JS.text (newlinesToSpace (JS.chars (JS.join " " contents)) false)
   ++ " ---")%string.

(** [formattedContext] after the loop over the groups, the counter running
    from [sourceCounter]. *)
Fixpoint renderGroups (sourceCounter : nat) (groups : list (string * list string))
  : string :=
  match groups with
  | [] => ""
  | g :: groups' =>
      (renderGroup sourceCounter g ++ renderGroups (S sourceCounter) groups')%string
  end.

(** The end of the method: the cut at the budget, the marker, the trim. *)
Definition finish (formattedContext : string) : string :=
  let contextLength := String.length formattedContext in
  JS.trim
    (if MAX_CONTEXT_LENGTH <? contextLength
     then (trimToSentenceBoundary formattedContext MAX_CONTEXT_LENGTH
           ++ "...(truncated)")%string
     else formattedContext).

(** The method from the point where both lists of documents are known;
    [None] is [null]. *)
Definition contextFor (st : VectorStore.Store)
  (archiveDocuments ddgResults : list VectorStore.Document) (query : string)
  : VectorStore.Store * option string :=
  let allDocuments := archiveDocuments ++ ddgResults in
  if List.length allDocuments =? 0 then (st, None)
  else
    let '(st1, initialized) := VectorStore.initialize st in
    if negb initialized then (st1, None)
    else
      let '(st2, documentsAdded) := VectorStore.addDocuments st1 allDocuments in
      if negb documentsAdded then (VectorStore.close st2, None)
      else
        let '(st3, relevantChunks) := VectorStore.queryRelevantContent st2 query 5 in
        let finalChunks := finalChunksOf ddgResults relevantChunks in
        let st4 := VectorStore.close st3 in
        if List.length finalChunks =? 0 then (st4, None)
        else (st4, Some (finish (renderGroups 1 (groupByDoc ddgResults finalChunks)))).

(** *** [getTopArchiveUrls], from the content of the page on *)

(** The rest of [l] after the literal [p], if [l] starts with it. *)
Fixpoint stripPrefix (p l : list ascii) : option (list ascii) :=
  match p, l with
  | [], _ => Some l
  | _ :: _, [] => None
  | a :: p', c :: l' => if Ascii.eqb a c then stripPrefix p' l' else None
  end.

(** [[a-zA-Z0-9]] *)
Definition isAlnum (c : ascii) : bool :=
  let n := JS.code c in
  ((65 <=? n) && (n <=? 90)) || ((97 <=? n) && (n <=? 122)) || ((48 <=? n) && (n <=? 57)).

(** The number of characters of the class at the start of [l], at most
    [most]: what a greedy [{_,most}] consumes. *)
Fixpoint countClass (class : ascii -> bool) (most : nat) (l : list ascii) : nat :=
  match most, l with
  | S m, c :: l' => if class c then S (countClass class m l') else 0
  | _, _ => 0
  end.

(** The length of the match of
    [/https?:\/\/archive\.(is|ph|today)\/[a-zA-Z0-9]{5,8}/] at the start of
    [l], if there is one.  No choice of the pattern can be revised to make a
    failed attempt succeed: after [http] the optional [s] is followed by
    [:], the three alternatives start with different letters, and nothing
    follows the last, greedy class. *)
Definition archiveMatchLength (l : list ascii) : option nat :=
  match stripPrefix (JS.chars "http") l with
  | None => None
  | Some r1 =>
      let '(r2, n2) :=
        match stripPrefix (JS.chars "s") r1 with
        | Some r => (r, 5)
        | None => (r1, 4)
        end in
      match stripPrefix (JS.chars "://archive.") r2 with
      | None => None
      | Some r3 =>
          let host :=
            match stripPrefix (JS.chars "is") r3 with
            | Some r => Some (r, 2)
            | None =>
                match stripPrefix (JS.chars "ph") r3 with
                | Some r => Some (r, 2)
                | None =>
                    match stripPrefix (JS.chars "today") r3 with
                    | Some r => Some (r, 5)
                    | None => None
                    end
                end
            end in
          match host with
          | None => None
          | Some (r4, n4) =>
              match stripPrefix (JS.chars "/") r4 with
              | None => None
              | Some r5 =>
                  let n5 := countClass isAlnum 8 r5 in
                  if 5 <=? n5 then Some (n2 + 11 + n4 + 1 + n5) else None
              end
          end
      end
  end.

(** [content.match(archiveRegex) || []]: the matches from left to right,
    each search starting where the last match ended; [skip] counts the
    characters of a match still to pass. *)
Fixpoint archiveMatches (l : list ascii) (skip : nat) : list (list ascii) :=
  match l with
  | [] => []
  | _ :: l' =>
      match skip with
      | S k => archiveMatches l' k
      | O =>
          match archiveMatchLength l with
          | Some n => firstn n l :: archiveMatches l' (n - 1)
          | None => archiveMatches l' 0
          end
      end
  end.

(** [s.includes(p)] *)
Fixpoint includes (l p : list ascii) : bool :=
  match stripPrefix p l with
  | Some _ => true
  | None => match l with
            | [] => false
            | _ :: l' => includes l' p
            end
  end.

(** The result of [getTopArchiveUrls] for the content of the search page. *)
Definition archiveUrlsIn (content : string) (limit : nat) : list string :=
  let matches := map JS.text (archiveMatches (JS.chars content) 0) in
  let validMatches :=
    filter (fun url => negb (includes (JS.chars url) (JS.chars "search"))
                       && negb (includes (JS.chars url) (JS.chars "/http")))
           matches in
  let uniqueUrls := VectorStore.newSet validMatches in
  JS.slice 0 limit uniqueUrls.

(** *** [scrapeContent], from the parsed article on *)

(** Whether [l] starts with [p], characters compared by [eq]. *)
Fixpoint isPrefix (eq : ascii -> ascii -> bool) (p l : list ascii) : bool :=
  match p, l with
  | [], _ => true
  | _ :: _, [] => false
  | a :: p', c :: l' => eq a c && isPrefix eq p' l'
  end.

(** [s.replace(/P/g, '')] for a literal [P], read from left to right: a
    match is dropped and the scan goes on after it; [skip] counts the
    characters of a match still to drop.  [eq] is [Ascii.eqb], or the
    comparison of the flag [i]. *)
Fixpoint removeLiteral (eq : ascii -> ascii -> bool) (p l : list ascii) (skip : nat)
  : list ascii :=
  match l with
  | [] => []
  | c :: l' =>
      match skip with
      | S k => removeLiteral eq p l' k
      | O => if isPrefix eq p l then removeLiteral eq p l' (List.length p - 1)
             else c :: removeLiteral eq p l' 0
      end
  end.

(** The length of the shortest run of characters of the class [dot] after
    which [y] starts, if there is one: what [.*?] consumes before [y]. *)
Fixpoint shortestGap (dot : ascii -> bool) (y l : list ascii) : option nat :=
  match l with
  | [] => None
  | c :: l' =>
      if isPrefix Ascii.eqb y l then Some 0
      else if dot c then option_map S (shortestGap dot y l') else None
  end.

(** [s.replace(/X.*?Y/g, '')] for literals [X] and [Y]; [dot] is the class
    of [.]: every character under the flag [s], every character but a line
    terminator without it. *)
Fixpoint removeSpan (dot : ascii -> bool) (x y l : list ascii) (skip : nat) : list ascii :=
  match l with
  | [] => []
  | c :: l' =>
      match skip with
      | S k => removeSpan dot x y l' k
      | O =>
          if isPrefix Ascii.eqb x l
          then match shortestGap dot y (skipn (List.length x) l) with
               | Some gap =>
                   removeSpan dot x y l' (List.length x + gap + List.length y - 1)
               | None => c :: removeSpan dot x y l' 0
               end
          else c :: removeSpan dot x y l' 0
      end
  end.

(** The comparison of the flag [i] on code units below 256: the letters
    [a-z] are read as [A-Z]. *)
Definition upperChar (c : ascii) : ascii :=
  let n := JS.code c in
  if (97 <=? n) && (n <=? 122) then ascii_of_nat (n - 32) else c.

Definition eqIgnoreCase (a c : ascii) : bool := Ascii.eqb (upperChar a) (upperChar c).

(** A line terminator: LF or CR among the code units below 256. *)
Definition isLineTerminator (c : ascii) : bool :=
  (JS.code c =? 10) || (JS.code c =? 13).

(** [s.replace(/\n{3,}/g, '\n\n')]; [run] counts the newlines just read. *)
Fixpoint capNewlines (l : list ascii) (run : nat) : list ascii :=
  match l with
  | [] => []
  | c :: l' =>
      if JS.isNewline c
      then if run <? 2 then c :: capNewlines l' (S run) else capNewlines l' (S run)
      else c :: capNewlines l' 0
  end.

(** What a run of white space that has been read becomes: itself when it
    is one character, one space when it is longer. *)
Definition flushSpace (pending : option ascii) (many : bool) : list ascii :=
  match pending with
  | None => []
  | Some p => if many then [" "%char] else [p]
  end.

(** [s.replace(/\s{2,}/g, ' ')]; [pending] is the first character of the
    run of white space being read and [many] tells whether the run has
    more than one character. *)
Fixpoint squeezeSpaces (l : list ascii) (pending : option ascii) (many : bool)
  : list ascii :=
  match l with
  | [] => flushSpace pending many
  | c :: l' =>
      if JS.isSpaceChar c
      then match pending with
           | None => squeezeSpaces l' (Some c) false
           | Some p => squeezeSpaces l' (Some p) true
           end
      else flushSpace pending many ++ c :: squeezeSpaces l' None false
  end.

(** The chain of replacements on [article.textContent]. *)
Definition cleanContent (textContent : string) : string :=
  let l0 := JS.chars textContent in
  let l1 := removeSpan (fun _ => true) (JS.chars "For customer support contact")
                       (JS.chars "com.") l0 0 in
  let l2 := removeSpan (fun c => negb (isLineTerminator c)) (JS.chars "READ COMMENTS")
                       (JS.chars "DISCUSSION") l1 0 in
  let l3 := removeLiteral Ascii.eqb (JS.chars "Stories Chosen For You") l2 0 in
  let l4 := removeLiteral eqIgnoreCase (JS.chars "ADVERTISEMENT") l3 0 in
  let l5 := capNewlines l4 0 in
  let l6 := squeezeSpaces l5 None false in
  JS.text (JS.trimChars l6).

(** The document that [scrapeContent] returns for a parsed article; an
    empty title or text stands for a missing one. *)
Definition scrapedDocument (url articleTitle textContent : string)
  : VectorStore.Document :=
  {| VectorStore.doc_url := url;
     VectorStore.doc_title :=
       if String.eqb articleTitle "" then "Unknown Title" else articleTitle;
     VectorStore.doc_content := cleanContent textContent |}.

(** The end of [getDuckDuckGoResults] when the page yielded results: the
    scraped results (title, URL, description) as documents. *)
Definition searchDocuments (results : list (string * string * string)) (limit : nat)
  : list VectorStore.Document :=
  map (fun result =>
         let '(title, url, description) := result in
         {| VectorStore.doc_url := url;
            VectorStore.doc_title := ("DuckDuckGo: " ++ title)%string;
            VectorStore.doc_content :=
              (title ++ String (ascii_of_nat 10) (String (ascii_of_nat 10) "")
               ++ description)%string |})
      (JS.slice 0 limit results).

End ArchiveSearchService.

(** ** The calls on a store *)

Import VectorStore.

(** The public methods of the store. *)
Inductive operation : Type :=
| OpInitialize
| OpAddDocuments (docs : list Document)
| OpQuery (queryText : string) (limit : nat)
| OpClose.

(** The state that a call leaves behind. *)
Definition run (op : operation) (st : Store) : Store :=
  match op with
  | OpInitialize => fst (initialize st)
  | OpAddDocuments docs => fst (addDocuments st docs)
  | OpQuery queryText limit => fst (queryRelevantContent st queryText limit)
  | OpClose => close st
  end.

(** The state after a sequence of calls on a new store. *)
Definition after (ops : list operation) : Store :=
  fold_left (fun st op => run op st) ops fresh.

(** A store that is not initialized holds no entry. *)
Definition consistent (st : Store) : Prop :=
  initialized st = false -> documents st = [].

(** ** Predicates on the results of a query *)

(** No result before the end of [l] comes from a URL without being unlike
    the first result of that URL. *)
Definition unlikeFirst (l : list Scored) : Prop :=
  forall (pre post : list Scored) (a b : Scored),
    l = pre ++ b :: post ->
    find (fun r => String.eqb (url (s_metadata r)) (url (s_metadata b))) pre = Some a ->
    PrimFloat.ltb (contentSimilarity (s_content a) (s_content b)) 0.5 = true.

(** The URLs not yet seen have no result yet. *)
Definition seenCovers (d : Dedup) : Prop :=
  forall u : string,
    has (seenUrls d) u = false ->
    find (fun r => String.eqb (url (s_metadata r)) u) (uniqueResults d) = None.

(** ** Inputs on which the code is evaluated below *)

Module Examples.


Definition doc (u t c : string) : Document :=
  {| doc_url := u; doc_title := t; doc_content := c |}.

(** Three texts of one URL; the last two differ in one word. *)
Definition sameUrlDocs : list Document :=
  [ doc "http://a" "Solar"
      "Solar panels convert sunlight into electricity using photovoltaic cells.";
    doc "http://a" "Wind"
      "Wind turbines transform moving air into rotational mechanical power output.";
    doc "http://a" "Wind"
      "Wind turbines transform moving air into rotational mechanical power today." ].

Definition sameUrlStore : Store := fst (addDocuments fresh sameUrlDocs).

(** Three texts of three URLs; the second holds the word [constructor]. *)
Definition constructorDocs : list Document :=
  [ doc "http://a" "Wind"
      "Wind turbines transform moving air into rotational mechanical power output for the grid and for the farm and for the town.";
    doc "http://b" "Java"
      "The constructor of a class initializes every field of the new object.";
    doc "http://c" "Solar"
      "Solar panels convert sunlight into electricity using photovoltaic cells." ].

Definition constructorStore : Store := fst (addDocuments fresh constructorDocs).

(** Three texts of three URLs, each above the threshold for the query. *)
Definition energyDocs : list Document :=
  [ doc "http://a" "Wind"
      "Wind turbines transform moving air into rotational mechanical power output for the grid and for the farm and for the town.";
    doc "http://b" "Hydro"
      "Hydroelectric dams store water behind a wall and release it through turbines.";
    doc "http://c" "Solar"
      "Solar panels convert sunlight into electricity using photovoltaic cells." ].

Definition energyStore : Store := fst (addDocuments fresh energyDocs).

Definition energyQuery : string := "solar panels electricity".

(** One text, below the threshold for the query [solar]. *)
Definition hydroStore : Store :=
  fst (addDocuments fresh
         [ doc "http://b" "Hydro"
             "Hydroelectric dams store water behind a wall and release it through turbines." ]).

(** The score of the [n]-th stored chunk against the query. *)
Definition scored (st : Store) (n : nat) : Scored :=
  nth n (similarities st energyQuery)
      {| s_content := ""; s_metadata := {| url := ""; title := "" |}; score := nan |}.


Fixpoint repeatChar (c : ascii) (n : nat) : string :=
  match n with
  | O => ""
  | S n' => String c (repeatChar c n')
  end.


(** 4000 letters, a full stop at index 4000, then more letters. *)
Definition lettersDotLetters : string :=
  (repeatChar "a"%char 4000 ++ "." ++ repeatChar "b"%char 10)%string.


(** The chunks of one source: 3000 letters, a full stop, 2000 letters. *)
Definition longGroup : string * list string :=
  ("http://a|Title",
   [(repeatChar "a"%char 3000 ++ ". " ++ repeatChar "b"%char 2000)%string]).

(** Two vectors of 384 entries near the square root of the least positive
    [number]: the squares of the first round down to the least positive
    [number], the squares of the second round to zero but for the last, and
    the products round up to the least positive [number]. *)
Definition underflowA : list float := (repeat 2.435e-162 383 ++ [0])%float.

Definition underflowB : list float := (repeat 1.5e-162 383 ++ [2.3e-162])%float.

End Examples.

(** ** Predicates on chunks and entries *)

(** A chunk that passes the test [length > 50]. *)
Definition long (s : string) : Prop := 50 < String.length s.

(** What a well-formed entry of the store is: a chunk longer than 50
    characters with an embedding of 384 components. *)
Definition wellFormed (e : Entry) : Prop :=
  50 < String.length (content e) /\ List.length (embedding e) = 384.


(** ** The boundary of a cut *)

(** The value of [lastBoundary] in [trimToSentenceBoundary]. *)
Definition boundaryOf (text : string) (maxLength : nat) : Z :=
  Z.max (Z.max (JS.lastIndexOf "." text maxLength) (JS.lastIndexOf "!" text maxLength))
        (JS.lastIndexOf "?" text maxLength).

(** ** The shape of a sentence *)

(** A character outside the class [[.!?]]. *)
Definition nonTerminator (c : ascii) : bool := negb (JS.isTerminator c).

(** The shape of a match: at least one character that is no terminator,
    then at least one terminator, and nothing else. *)
Definition sentenceShape (m : list ascii) : Prop :=
  exists body term,
    m = body ++ term /\ body <> [] /\ term <> [] /\
    forallb nonTerminator body = true /\ forallb JS.isTerminator term = true.

(** ** White space in a text *)

(** No two characters of white space stand side by side. *)
Fixpoint singleSpaced (l : list ascii) : bool :=
  match l with
  | a :: (b :: _) as l' => negb (JS.isSpaceChar a && JS.isSpaceChar b) && singleSpaced l'
  | _ => true
  end.

(** The first character, if any, is no white space. *)
Definition startsTight (l : list ascii) : bool :=
  match l with
  | c :: _ => negb (JS.isSpaceChar c)
  | [] => true
  end.

(** ** The shape of an archive URL *)

(** [http] or [https], the host [archive.is], [archive.ph] or
    [archive.today], and a path of five to eight letters and digits. *)
Definition archiveUrlShape (u : list ascii) : Prop :=
  exists scheme host id,
    u = scheme ++ JS.chars "://archive." ++ host ++ "/"%char :: id /\
    (scheme = JS.chars "http" \/ scheme = JS.chars "https") /\
    (host = JS.chars "is" \/ host = JS.chars "ph" \/ host = JS.chars "today") /\
    forallb ArchiveSearchService.isAlnum id = true /\
    5 <= List.length id <= 8.

(** ** The alphabet of a cleaned text *)

(** A small letter, a digit, an underscore or a space. *)
Definition isCleanChar (c : ascii) : bool :=
  let n := JS.code c in
  ((97 <=? n) && (n <=? 122)) || ((48 <=? n) && (n <=? 57)) || (n =? 95) || (n =? 32).

(** ** Texts with and without a sentence *)



(** ** The sign of a binary64 value *)

(** Not below zero: NaN, a zero of either sign, or a value above zero. *)
Definition notNegative (x : spec_float) : Prop :=
  match x with
  | S754_infinity true | S754_finite true _ _ => False
  | _ => True
  end.

(** Not below zero and not the negative zero. *)
Definition plusSigned (x : spec_float) : Prop :=
  match x with
  | S754_zero true | S754_infinity true | S754_finite true _ _ => False
  | _ => True
  end.

(** ** The query, for any order that the sort may leave

    [rank] and [queryRelevantContent] with [similarities.sort(...)] replaced
    by a function [sort] on arrays: with [JS.sortBy byScore] for [sort] these
    are [rank] and [queryRelevantContent] themselves. *)
Definition rankWith (sort : list Scored -> list Scored)
  (st : Store) (queryText : string) (limit : nat) : list Scored :=
  let sorted := sort (similarities st queryText) in
  let filteredResults :=
    filter (fun item => PrimFloat.ltb SIMILARITY_THRESHOLD (score item)) sorted in
  let d := fold_left (consider limit) filteredResults
             {| uniqueResults := []; seenUrls := [] |} in
  JS.slice 0 limit (uniqueResults d).

Definition queryWith (sort : list Scored -> list Scored)
  (st : Store) (queryText : string) (limit : nat) : Store * list Scored :=
  let '(st1, success) := if initialized st then (st, true) else initialize st in
  if negb success then (st1, [])
  else if List.length (documents st1) =? 0 then (st1, [])
  else (st1, rankWith sort st1 queryText limit).

(** * Properties of the embedding *)

(** The functions below are evaluated on concrete inputs only; in a proof
    about every input they stay folded. *)
Arguments createEmbedding : simpl never.
Arguments cosineSimilarity : simpl never.
Arguments contentSimilarity : simpl never.
Arguments cleanText : simpl never.
Arguments chunkContent : simpl never.
Arguments entriesOf : simpl never.
Arguments rank : simpl never.
Arguments similarities : simpl never.

(** ** Order on binary64 values *)

Lemma SFcompare_antisym (x y : spec_float) :
  SFcompare y x = option_map CompOpp (SFcompare x y).
Proof.
  destruct x as [sx|sx| |sx mx ex], y as [sy|sy| |sy my ey]; simpl;
    try reflexivity;
    try (destruct sx; reflexivity); try (destruct sy; reflexivity);
    try (destruct sx, sy; reflexivity).
  rewrite (Z.compare_antisym ex ey).
  change (Pos.compare_cont Eq my mx) with (Pos.compare my mx).
  change (Pos.compare_cont Eq mx my) with (Pos.compare mx my).
  rewrite (Pos.compare_antisym mx my).
  destruct sx, sy; simpl; try reflexivity;
    destruct (ex ?= ey)%Z; simpl; try reflexivity;
    destruct (mx ?= my)%positive; reflexivity.
Qed.

(** [x < y] excludes [y <= x]. *)
Lemma ltb_not_leb (x y : float) :
  PrimFloat.ltb x y = true -> PrimFloat.leb y x = false.
Proof.
  rewrite FloatAxioms.ltb_spec, FloatAxioms.leb_spec. unfold SFltb, SFleb.
  rewrite (SFcompare_antisym (Prim2SF x) (Prim2SF y)).
  destruct (SFcompare (Prim2SF x) (Prim2SF y)) as [[ | | ]|]; simpl; congruence.
Qed.

(** ** The store's life cycle *)

Lemma addDocuments_fold_initialized (l : list (Document * nat)) (st : Store) :
  initialized
    (fold_left
       (fun s di =>
          {| documents := documents s ++ entriesOf s (snd di) (fst di);
             initialized := initialized s;
             stopWords := stopWords s |}) l st) = initialized st.
Proof.
  revert st. induction l as [|di l IH]; intros st; simpl.
  - reflexivity.
  - rewrite IH. reflexivity.
Qed.

Lemma addDocuments_fold_stopWords (l : list (Document * nat)) (st : Store) :
  stopWords
    (fold_left
       (fun s di =>
          {| documents := documents s ++ entriesOf s (snd di) (fst di);
             initialized := initialized s;
             stopWords := stopWords s |}) l st) = stopWords st.
Proof.
  revert st. induction l as [|di l IH]; intros st; simpl.
  - reflexivity.
  - rewrite IH. reflexivity.
Qed.

Lemma addDocuments_initialized (st : Store) (docs : list Document) :
  initialized (fst (addDocuments st docs)) = true.
Proof.
  unfold addDocuments. destruct (initialized st) eqn:E; simpl.
  - rewrite addDocuments_fold_initialized. exact E.
  - rewrite addDocuments_fold_initialized. reflexivity.
Qed.

Lemma query_initialized (st : Store) (queryText : string) (limit : nat) :
  initialized (fst (queryRelevantContent st queryText limit)) = true.
Proof.
  unfold queryRelevantContent. destruct (initialized st) eqn:E; simpl.
  - destruct (List.length (documents st) =? 0); exact E.
  - reflexivity.
Qed.

(** Whatever the state before, a call leaves an initialized store or an
    empty one. *)
Lemma run_consistent (op : operation) (st : Store) : consistent (run op st).
Proof.
  intros H. destruct op; cbn [run] in *.
  - discriminate H.
  - rewrite addDocuments_initialized in H. discriminate H.
  - rewrite query_initialized in H. discriminate H.
  - reflexivity.
Qed.

Lemma fresh_consistent : consistent fresh.
Proof. intros _. reflexivity. Qed.

(** C10: the predicate "not initialized implies no entry" holds of the new
    store, and every public method ([initialize], [addDocuments],
    [queryRelevantContent], [close]) takes a state that satisfies it to a
    state that satisfies it. *)
Theorem store_consistency :
  consistent fresh /\
  (forall (op : operation) (st : Store), consistent st -> consistent (run op st)).
Proof.
  split.
  - exact fresh_consistent.
  - intros op st _. apply run_consistent.
Qed.

Lemma store_consistency_witness :
  consistent (run (OpAddDocuments []) (run OpClose fresh)).
Proof.
  apply (proj2 store_consistency (OpAddDocuments []) (run OpClose fresh)).
  apply (proj2 store_consistency OpClose fresh).
  exact (proj1 store_consistency).
Defined.

(** Every state that calls can reach from the new store is consistent. *)
Lemma after_consistent (ops : list operation) : consistent (after ops).
Proof.
  unfold after.
  assert (G : forall st, consistent st ->
                         consistent (fold_left (fun st op => run op st) ops st)).
  { induction ops as [|op ops IH]; intros st H; simpl.
    - exact H.
    - apply IH. apply run_consistent. }
  apply G. exact fresh_consistent.
Qed.

(** C9: a query on a store that is not initialized, or that holds no entry,
    returns the empty list. *)
Theorem query_empty_store (st : Store) (queryText : string) (limit : nat) :
  initialized st = false \/ documents st = [] ->
  snd (queryRelevantContent st queryText limit) = [].
Proof.
  intros H. unfold queryRelevantContent.
  destruct (initialized st) eqn:E; simpl.
  - destruct H as [H|H]; [discriminate H|]. rewrite H. reflexivity.
  - reflexivity.
Qed.

Lemma query_empty_store_witness :
  snd (queryRelevantContent (fst (initialize fresh)) "solar panels" 5) = [] /\
  snd (queryRelevantContent fresh "solar panels" 5) = [].
Proof.
  split.
  - apply (query_empty_store (fst (initialize fresh)) "solar panels" 5).
    right. reflexivity.
  - apply (query_empty_store fresh "solar panels" 5). left. reflexivity.
Defined.

(** ** Determinism of the embedding *)

Lemma run_stopWords (op : operation) (st : Store) :
  stopWords (run op st) = stopWords st.
Proof.
  destruct op; simpl; try reflexivity.
  - unfold addDocuments. destruct (initialized st); simpl;
      rewrite addDocuments_fold_stopWords; reflexivity.
  - unfold queryRelevantContent. destruct (initialized st); simpl.
    + destruct (List.length (documents st) =? 0); reflexivity.
    + reflexivity.
Qed.

Lemma after_stopWords (ops : list operation) :
  stopWords (after ops) = stopWords fresh.
Proof.
  unfold after. generalize fresh as st. induction ops as [|op ops IH]; intros st; simpl.
  - reflexivity.
  - rewrite IH. apply run_stopWords.
Qed.

(** The embedding reads nothing of the store but its stop words. *)
Lemma createEmbedding_reads_stopWords (s1 s2 : Store) (x : string) :
  stopWords s1 = stopWords s2 -> createEmbedding s1 x = createEmbedding s2 x.
Proof.
  destruct s1 as [d1 i1 w1], s2 as [d2 i2 w2]. simpl. intros ->. reflexivity.
Qed.

(** C8: the embedding of a text is the same vector whatever calls were made
    on the store before, and in whatever state they left it. *)
Theorem createEmbedding_deterministic (ops1 ops2 : list operation) (x : string) :
  createEmbedding (after ops1) x = createEmbedding (after ops2) x.
Proof.
  apply createEmbedding_reads_stopWords.
  rewrite !after_stopWords. reflexivity.
Qed.

(** ** What the query returns *)

Lemma insertSorted_In {A : Type} (cmp : A -> A -> float) (x y : A) (l : list A) :
  In y (JS.insertSorted cmp x l) <-> y = x \/ In y l.
Proof.
  induction l as [|z l IH]; simpl.
  - intuition auto.
  - destruct (PrimFloat.ltb 0 (cmp x z)); simpl.
    + rewrite IH. intuition auto.
    + intuition auto.
Qed.

Lemma sortBy_In {A : Type} (cmp : A -> A -> float) (y : A) (l : list A) :
  In y (JS.sortBy cmp l) <-> In y l.
Proof.
  induction l as [|x l IH]; simpl.
  - reflexivity.
  - rewrite insertSorted_In, IH. intuition auto.
Qed.

Lemma firstn_incl {A : Type} (n : nat) (y : A) (l : list A) :
  In y (firstn n l) -> In y l.
Proof.
  revert l. induction n as [|n IH]; intros [|x l]; simpl; intuition auto.
Qed.

Lemma skipn_incl {A : Type} (n : nat) (y : A) (l : list A) :
  In y (skipn n l) -> In y l.
Proof.
  revert l. induction n as [|n IH]; intros [|x l]; simpl; intuition auto.
Qed.

Lemma slice_In {A : Type} (i n : nat) (y : A) (l : list A) :
  In y (JS.slice i n l) -> In y l.
Proof.
  unfold JS.slice. intros H.
  apply (skipn_incl i). apply (firstn_incl n). exact H.
Qed.

(** The loop that removes duplicates only ever keeps results it was given. *)
Lemma consider_In (limit : nat) (d : Dedup) (result y : Scored) :
  In y (uniqueResults (consider limit d result)) ->
  In y (uniqueResults d) \/ y = result.
Proof.
  unfold consider.
  destruct (negb (has (seenUrls d) (url (s_metadata result)))).
  - cbn [uniqueResults]. rewrite in_app_iff. cbn [In]. intuition auto.
  - destruct (List.length (uniqueResults d) <? limit); [|auto].
    destruct (find _ (uniqueResults d)) as [e|]; [|auto].
    destruct (PrimFloat.ltb (contentSimilarity (s_content e) (s_content result)) 0.5);
      cbn [uniqueResults]; [|auto].
    rewrite in_app_iff. cbn [In]. intuition auto.
Qed.

Lemma dedup_In (limit : nat) (l : list Scored) (d : Dedup) (y : Scored) :
  In y (uniqueResults (fold_left (consider limit) l d)) ->
  In y (uniqueResults d) \/ In y l.
Proof.
  revert d. induction l as [|x l IH]; intros d H; simpl in *.
  - auto.
  - destruct (IH _ H) as [H1|H1]; [|auto].
    destruct (consider_In _ _ _ _ H1); auto.
Qed.

(** Every ranked result passed the threshold filter and is the score of a
    stored entry. *)
Lemma rank_In (st : Store) (queryText : string) (limit : nat) (r : Scored) :
  In r (rank st queryText limit) ->
  In r (similarities st queryText) /\
  PrimFloat.ltb SIMILARITY_THRESHOLD (score r) = true.
Proof.
  unfold rank. intros H. apply slice_In in H. apply dedup_In in H.
  destruct H as [H|H]; [destruct H|].
  apply filter_In in H. destruct H as [H1 H2].
  apply sortBy_In in H1. auto.
Qed.

(** C1: every result of a query is a stored chunk with its raw similarity
    to the query as score, and that score is above 0.275: the test
    [score > 0.275] holds of it and the test [score <= 0.275] fails. *)
Theorem query_above_threshold
  (st : Store) (queryText : string) (limit : nat) (r : Scored) :
  In r (snd (queryRelevantContent st queryText limit)) ->
  (exists doc : Entry,
      In doc (documents st) /\
      s_content r = content doc /\
      s_metadata r = metadata doc /\
      score r = cosineSimilarity (createEmbedding st queryText) (embedding doc)) /\
  PrimFloat.ltb 0.275 (score r) = true /\
  PrimFloat.leb (score r) 0.275 = false.
Proof.
  unfold queryRelevantContent.
  destruct (initialized st) eqn:E; cbn [initialize negb snd].
  - destruct (List.length (documents st) =? 0); cbn [snd]; [intros []|].
    intros H. apply rank_In in H. destruct H as [H1 H2].
    unfold similarities in H1. apply in_map_iff in H1.
    destruct H1 as [doc [Hr Hdoc]]. subst r. cbn [score s_content s_metadata] in *.
    split; [|split].
    + exists doc. auto.
    + exact H2.
    + apply ltb_not_leb. exact H2.
  - intros [].
Qed.

(** ** Duplicates of one URL *)

Lemma app_tail_cases {A : Type} (l pre post : list A) (x b : A) :
  l ++ [x] = pre ++ b :: post ->
  (post = [] /\ pre = l /\ b = x) \/
  (exists post', post = post' ++ [x] /\ l = pre ++ b :: post').
Proof.
  intros H. destruct (exists_last (l := b :: post)) as [post' [y Hy]]; [discriminate|].
  destruct post as [|c post].
  - left. apply app_inj_tail in H. destruct H as [H1 H2]. auto.
  - right. destruct post' as [|b' post'].
    + destruct post; discriminate Hy.
    + simpl in Hy. injection Hy as Hb Hpost. subst b'.
      rewrite Hpost in H. rewrite app_comm_cons, app_assoc in H.
      apply app_inj_tail in H. destruct H as [H1 H2]. subst y.
      exists post'. rewrite Hpost. split; [reflexivity|]. exact H1.
Qed.

Lemma find_app_none {A : Type} (p : A -> bool) (l : list A) (x : A) :
  find p l = None -> p x = false -> find p (l ++ [x]) = None.
Proof.
  induction l as [|y l IH]; simpl; intros H Hx.
  - rewrite Hx. reflexivity.
  - destruct (p y); [discriminate H|]. auto.
Qed.

Lemma has_app (set : list string) (w u : string) :
  has (set ++ [w]) u = has set u || String.eqb u w.
Proof.
  unfold has. rewrite existsb_app. simpl. rewrite orb_false_r. reflexivity.
Qed.

Lemma unlikeFirst_snoc_fresh (l : list Scored) (x : Scored) :
  unlikeFirst l ->
  find (fun r => String.eqb (url (s_metadata r)) (url (s_metadata x))) l = None ->
  unlikeFirst (l ++ [x]).
Proof.
  intros P Hnone pre post a b Heq Hfind.
  destruct (app_tail_cases _ _ _ _ _ Heq) as [[Hpost [Hpre Hb]]|[post' [Hpost Hl]]].
  - subst pre b. rewrite Hnone in Hfind. discriminate Hfind.
  - exact (P pre post' a b Hl Hfind).
Qed.

Lemma unlikeFirst_snoc_checked (l : list Scored) (x e : Scored) :
  unlikeFirst l ->
  find (fun r => String.eqb (url (s_metadata r)) (url (s_metadata x))) l = Some e ->
  PrimFloat.ltb (contentSimilarity (s_content e) (s_content x)) 0.5 = true ->
  unlikeFirst (l ++ [x]).
Proof.
  intros P Hsome Hlt pre post a b Heq Hfind.
  destruct (app_tail_cases _ _ _ _ _ Heq) as [[Hpost [Hpre Hb]]|[post' [Hpost Hl]]].
  - subst pre b. rewrite Hsome in Hfind. injection Hfind as <-. exact Hlt.
  - exact (P pre post' a b Hl Hfind).
Qed.

Lemma consider_keeps (limit : nat) (d : Dedup) (result : Scored) :
  seenCovers d -> unlikeFirst (uniqueResults d) ->
  seenCovers (consider limit d result) /\
  unlikeFirst (uniqueResults (consider limit d result)).
Proof.
  intros C P. unfold consider.
  destruct (has (seenUrls d) (url (s_metadata result))) eqn:Hseen; cbn [negb].
  - destruct (List.length (uniqueResults d) <? limit); [|auto].
    destruct (find _ (uniqueResults d)) as [e|] eqn:Hfind; [|auto].
    destruct (PrimFloat.ltb (contentSimilarity (s_content e) (s_content result)) 0.5)
      eqn:Hlt; [|auto].
    cbn [uniqueResults seenUrls]. split.
    + intros u Hu. cbn [seenUrls uniqueResults] in Hu |- *.
      apply find_app_none; [exact (C u Hu)|].
      destruct (String.eqb_spec (url (s_metadata result)) u) as [E|E]; [|reflexivity].
      subst u. rewrite Hseen in Hu. discriminate Hu.
    + exact (unlikeFirst_snoc_checked _ _ _ P Hfind Hlt).
  - cbn [uniqueResults seenUrls]. split.
    + intros u Hu. cbn [seenUrls uniqueResults] in Hu |- *.
      rewrite has_app in Hu. apply orb_false_iff in Hu.
      destruct Hu as [Hu1 Hu2]. apply find_app_none; [exact (C u Hu1)|].
      rewrite String.eqb_sym. exact Hu2.
    + exact (unlikeFirst_snoc_fresh _ _ P (C _ Hseen)).
Qed.

Lemma dedup_keeps (limit : nat) (l : list Scored) (d : Dedup) :
  seenCovers d -> unlikeFirst (uniqueResults d) ->
  unlikeFirst (uniqueResults (fold_left (consider limit) l d)).
Proof.
  revert d. induction l as [|x l IH]; intros d C P; simpl.
  - exact P.
  - destruct (consider_keeps limit d x C P) as [C' P']. exact (IH _ C' P').
Qed.

Lemma unlikeFirst_firstn (n : nat) (l : list Scored) :
  unlikeFirst l -> unlikeFirst (firstn n l).
Proof.
  intros P pre post a b Heq Hfind.
  apply (P pre (post ++ skipn n l) a b); [|exact Hfind].
  rewrite <- (firstn_skipn n l) at 1. rewrite Heq, <- app_assoc. reflexivity.
Qed.

Lemma rank_unlikeFirst (st : Store) (queryText : string) (limit : nat) :
  unlikeFirst (rank st queryText limit).
Proof.
  unfold rank, JS.slice. cbn [skipn].
  apply unlikeFirst_firstn. apply dedup_keeps.
  - intros u _. reflexivity.
  - intros pre post a b Heq _. destruct pre; discriminate Heq.
Qed.

(** C2, as the code has it: in the result of a query, a chunk [b] that comes
    after another chunk of its URL has a word overlap below 0.5 with the
    first chunk [a] of that URL in the result.  Two later chunks of one URL
    are not compared with each other. *)
Theorem later_chunk_unlike_first
  (st : Store) (queryText : string) (limit : nat)
  (pre post : list Scored) (a b : Scored) :
  snd (queryRelevantContent st queryText limit) = pre ++ b :: post ->
  find (fun r => String.eqb (url (s_metadata r)) (url (s_metadata b))) pre = Some a ->
  PrimFloat.ltb (contentSimilarity (s_content a) (s_content b)) 0.5 = true.
Proof.
  unfold queryRelevantContent.
  destruct (initialized st); cbn [initialize negb snd].
  - destruct (List.length (documents st) =? 0); cbn [snd].
    + intros H. destruct pre; discriminate H.
    + apply rank_unlikeFirst.
  - intros H. destruct pre; discriminate H.
Qed.

Lemma later_chunk_unlike_first_witness :
  PrimFloat.ltb
    (contentSimilarity (s_content (Examples.scored Examples.sameUrlStore 0))
                       (s_content (Examples.scored Examples.sameUrlStore 1))) 0.5 = true.
Proof.
  apply (later_chunk_unlike_first Examples.sameUrlStore Examples.energyQuery 5
           [Examples.scored Examples.sameUrlStore 0]
           [Examples.scored Examples.sameUrlStore 2]
           (Examples.scored Examples.sameUrlStore 0)
           (Examples.scored Examples.sameUrlStore 1)).
  - vm_compute. reflexivity.
  - vm_compute. reflexivity.
Defined.

(** C2, as the claim states it, fails: with three chunks of one URL stored,
    the query returns all three, and the second and the third, which are
    unlike the first, share more than half of their words. *)
Lemma same_url_pair_overlaps :
  exists a b : Scored,
    snd (queryRelevantContent Examples.sameUrlStore Examples.energyQuery 5)
    = [Examples.scored Examples.sameUrlStore 0; a; b] /\
    s_content a <> s_content b /\
    url (s_metadata a) = url (s_metadata b) /\
    PrimFloat.ltb (contentSimilarity (s_content a) (s_content b)) 0.5 = false.
Proof.
  exists (Examples.scored Examples.sameUrlStore 1), (Examples.scored Examples.sameUrlStore 2).
  split; [vm_compute; reflexivity|].
  split; [vm_compute; discriminate|].
  split; vm_compute; reflexivity.
Qed.

Lemma query_above_threshold_witness :
  (exists doc : Entry,
      In doc (documents Examples.sameUrlStore) /\
      s_content (Examples.scored Examples.sameUrlStore 0) = content doc /\
      s_metadata (Examples.scored Examples.sameUrlStore 0) = metadata doc /\
      score (Examples.scored Examples.sameUrlStore 0)
      = cosineSimilarity (createEmbedding Examples.sameUrlStore Examples.energyQuery)
                         (embedding doc)) /\
  PrimFloat.ltb 0.275 (score (Examples.scored Examples.sameUrlStore 0)) = true /\
  PrimFloat.leb (score (Examples.scored Examples.sameUrlStore 0)) 0.275 = false.
Proof.
  apply (query_above_threshold Examples.sameUrlStore Examples.energyQuery 5
           (Examples.scored Examples.sameUrlStore 0)).
  vm_compute. left. reflexivity.
Defined.

(** ** The tiers of the chunking *)


(** ** Evaluations of the code *)


(** C7 at a text that holds the word [constructor]: the first component of
    its embedding is NaN, which is not [>= 0]. *)
Lemma embedding_of_constructor_is_nan :
  nth 0 (createEmbedding fresh "The constructor of a class initializes every field.") 0%float
  = nan /\
  PrimFloat.leb 0
    (nth 0 (createEmbedding fresh "The constructor of a class initializes every field.") 0%float)
  = false /\
  nth 0 (createEmbedding fresh "constructor") 0%float = nan.
Proof.
  repeat split; vm_compute; reflexivity.
Qed.

(** C6 at a store whose second chunk holds the word [constructor]: that
    chunk scores NaN, the sort leaves the three chunks in storage order, and
    the query returns the first and the third with the lower score first. *)
Lemma query_result_not_sorted :
  map (fun r => url (s_metadata r))
      (snd (queryRelevantContent Examples.constructorStore Examples.energyQuery 5))
  = ["http://a"; "http://c"] /\
  JS.isNaN (score (Examples.scored Examples.constructorStore 1)) = true /\
  PrimFloat.ltb (score (Examples.scored Examples.constructorStore 0))
                (score (Examples.scored Examples.constructorStore 2)) = true /\
  snd (queryRelevantContent Examples.constructorStore Examples.energyQuery 5)
  = [Examples.scored Examples.constructorStore 0; Examples.scored Examples.constructorStore 2].
Proof.
  repeat split; vm_compute; reflexivity.
Qed.

(** C4, as the claim states it, fails.  By rounding: the score of [1, 1, 1]
    with itself, and the score of the embedding of a two-word text with
    itself, are above 1.  By overflow: the score of a vector whose squares
    overflow is NaN.  By underflow: where the squares of the entries round to
    the least positive [number] or to zero, the score is far from the exact
    one, above 1.2 for two vectors of one entry and above 19 for two vectors
    of 384 entries. *)
Lemma score_exceeds_one :
  forallb (PrimFloat.leb 0) [1; 1; 1]%float = true /\
  PrimFloat.ltb 1 (cosineSimilarity [1; 1; 1]%float [1; 1; 1]%float) = true /\
  forallb (PrimFloat.leb 0) (createEmbedding fresh "solar panels") = true /\
  PrimFloat.ltb 1 (cosineSimilarity (createEmbedding fresh "solar panels")
                                    (createEmbedding fresh "solar panels")) = true /\
  forallb (PrimFloat.leb 0) [1e200]%float = true /\
  JS.isNaN (cosineSimilarity [1e200]%float [1e200]%float) = true /\
  forallb (PrimFloat.leb 0) [2.71e-162]%float = true /\
  PrimFloat.ltb 1.2 (cosineSimilarity [1]%float [2.71e-162]%float) = true /\
  List.length Examples.underflowA = 384 /\
  List.length Examples.underflowB = 384 /\
  forallb (PrimFloat.leb 0) Examples.underflowA = true /\
  forallb (PrimFloat.leb 0) Examples.underflowB = true /\
  PrimFloat.ltb 19 (cosineSimilarity Examples.underflowA Examples.underflowB) = true.
Proof.
  repeat split; vm_compute; reflexivity.
Qed.

(** ** The sign of the score *)

Lemma plusSigned_notNegative (x : spec_float) : plusSigned x -> notNegative x.
Proof. destruct x as [[|]|[|]| |[|] m e]; simpl; tauto. Qed.

Lemma round_aux_plus (m e : Z) (l : location) :
  plusSigned (binary_round_aux prec emax false m e l).
Proof.
  unfold binary_round_aux.
  destruct (shr_fexp prec emax m e l) as [mrs' e'].
  destruct (shr_fexp prec emax _ e' loc_Exact) as [mrs'' e''].
  destruct (shr_m mrs'') as [|p|p]; [exact I| |exact I].
  destruct (Z.leb e'' (emax - prec)); exact I.
Qed.

Lemma round_plus (m : positive) (e : Z) : plusSigned (binary_round prec emax false m e).
Proof.
  unfold binary_round. destruct (shl_align _ _ _) as [mz ez].
  apply round_aux_plus.
Qed.

Lemma SFmul_notNegative (x y : spec_float) :
  notNegative x -> notNegative y -> notNegative (SF64mul x y).
Proof.
  destruct x as [[|]|[|]| |[|] mx ex], y as [[|]|[|]| |[|] my ey];
    simpl; try tauto; intros _ _;
    apply plusSigned_notNegative, round_aux_plus.
Qed.

Lemma SFmul_plus (x y : spec_float) :
  plusSigned x -> plusSigned y -> plusSigned (SF64mul x y).
Proof.
  destruct x as [[|]|[|]| |[|] mx ex], y as [[|]|[|]| |[|] my ey];
    simpl; try tauto; intros _ _; apply round_aux_plus.
Qed.

Lemma SFadd_plus (x y : spec_float) :
  plusSigned x -> notNegative y -> plusSigned (SF64add x y).
Proof.
  destruct x as [[|]|[|]| |[|] mx ex], y as [[|]|[|]| |[|] my ey];
    simpl; try tauto; intros _ _.
  unfold SF64add, SFadd. cbn [cond_Zopp Z.add]. unfold binary_normalize.
  apply round_plus.
Qed.

Lemma SFdiv_notNegative (x y : spec_float) :
  notNegative x -> plusSigned y -> notNegative (SF64div x y).
Proof.
  destruct x as [[|]|[|]| |[|] mx ex], y as [[|]|[|]| |[|] my ey];
    simpl; try tauto; intros _ _.
  unfold SF64div, SFdiv.
  destruct (SFdiv_core_binary _ _ _ _ _ _) as [[mz ez] lz].
  apply plusSigned_notNegative, round_aux_plus.
Qed.

Lemma SFsqrt_plus (x : spec_float) : plusSigned x -> plusSigned (SF64sqrt x).
Proof.
  destruct x as [[|]|[|]| |[|] mx ex]; simpl; try tauto; intros _.
  unfold SF64sqrt, SFsqrt.
  destruct (SFsqrt_core_binary _ _ _ _) as [[mz ez] lz].
  apply round_aux_plus.
Qed.

Lemma ofNat_plus (n : nat) : plusSigned (Prim2SF (JS.ofNat n)).
Proof.
  unfold JS.ofNat. rewrite FloatAxioms.of_uint63_spec.
  pose proof (Uint63.to_Z_bounded (Uint63.of_Z (Z.of_nat n))) as [H _].
  destruct (Uint63.to_Z _) as [|p|p]; simpl.
  - exact I.
  - apply round_plus.
  - lia.
Qed.

Lemma leb_zero_notNegative (v : float) :
  PrimFloat.leb 0 v = true -> notNegative (Prim2SF v).
Proof.
  rewrite FloatAxioms.leb_spec.
  change (Prim2SF 0) with (S754_zero false).
  destruct (Prim2SF v) as [[|]|[|]| |[|] m e]; simpl; try tauto; discriminate.
Qed.

Lemma notNegative_leb_zero (r : float) :
  notNegative (Prim2SF r) -> JS.isNaN r = true \/ PrimFloat.leb 0 r = true.
Proof.
  unfold JS.isNaN. rewrite FloatAxioms.leb_spec, FloatAxioms.eqb_spec.
  change (Prim2SF 0) with (S754_zero false).
  destruct (Prim2SF r) as [[|]|[|]| |[|] m e]; simpl; try tauto.
Qed.

(** The three sums of the loop keep their sign. *)
Lemma sums_plus (l : list (float * float)) (acc : float * float * float) :
  Forall (fun ab => notNegative (Prim2SF (fst ab)) /\ notNegative (Prim2SF (snd ab))) l ->
  plusSigned (Prim2SF (fst (fst acc))) ->
  plusSigned (Prim2SF (snd (fst acc))) ->
  plusSigned (Prim2SF (snd acc)) ->
  let r := fold_left
    (fun acc ab =>
       let '(dotProduct, normA, normB) := acc in
       let '(a, b) := ab in
       (dotProduct + a * b, normA + a * a, normB + b * b)%float) l acc in
  plusSigned (Prim2SF (fst (fst r))) /\
  plusSigned (Prim2SF (snd (fst r))) /\
  plusSigned (Prim2SF (snd r)).
Proof.
  revert acc. induction l as [|[a b] l IH]; intros [[d na] nb] Hl Hd Ha Hb.
  - cbn. auto.
  - inversion Hl as [|x l' [Hx Hy] Hl']; subst. cbn [fst snd] in *.
    cbn [fold_left]. apply IH; [exact Hl'| | |]; cbn [fst snd];
      rewrite FloatAxioms.add_spec, FloatAxioms.mul_spec;
      apply SFadd_plus; try assumption; apply SFmul_notNegative; assumption.
Qed.

Lemma combine_notNegative (vecA vecB : list float) :
  forallb (PrimFloat.leb 0) vecA = true ->
  forallb (PrimFloat.leb 0) vecB = true ->
  Forall (fun ab => notNegative (Prim2SF (fst ab)) /\ notNegative (Prim2SF (snd ab)))
         (combine vecA vecB).
Proof.
  revert vecB. induction vecA as [|a vecA IH]; intros [|b vecB] HA HB; cbn [combine];
    try constructor.
  - cbn [forallb] in HA, HB.
    apply andb_true_iff in HA as [Ha HA]. apply andb_true_iff in HB as [Hb HB].
    split; apply leb_zero_notNegative; assumption.
  - cbn [forallb] in HA, HB.
    apply andb_true_iff in HA as [Ha HA]. apply andb_true_iff in HB as [Hb HB].
    apply IH; assumption.
Qed.

Lemma cosineSimilarity_notNegative (vecA vecB : list float) :
  forallb (PrimFloat.leb 0) vecA = true ->
  forallb (PrimFloat.leb 0) vecB = true ->
  notNegative (Prim2SF (cosineSimilarity vecA vecB)).
Proof.
  intros HA HB. unfold cosineSimilarity.
  pose proof (sums_plus (combine vecA vecB) (0, 0, 0)%float
                (combine_notNegative vecA vecB HA HB) I I I) as H.
  cbv zeta in H. fold (sums vecA vecB) in H.
  destruct (sums vecA vecB) as [[d na] nb]. cbn [fst snd] in H.
  destruct H as (Hd & Ha & Hb).
  destruct (PrimFloat.eqb na 0 || PrimFloat.eqb nb 0).
  - exact I.
  - rewrite FloatAxioms.mul_spec. apply SFmul_notNegative.
    + rewrite FloatAxioms.div_spec. apply SFdiv_notNegative.
      * apply plusSigned_notNegative, Hd.
      * rewrite FloatAxioms.mul_spec, !FloatAxioms.sqrt_spec.
        apply SFmul_plus; apply SFsqrt_plus; assumption.
    + apply plusSigned_notNegative.
      rewrite FloatAxioms.add_spec. apply SFadd_plus; [exact I|].
      rewrite FloatAxioms.mul_spec. apply SFmul_notNegative; [exact I|].
      rewrite FloatAxioms.div_spec. apply SFdiv_notNegative.
      * apply plusSigned_notNegative, ofNat_plus.
      * apply ofNat_plus.
Qed.

(** C4, as the code has it: for two vectors whose entries are not negative,
    the score is never below zero: it is NaN, or it is at least 0.  (No upper
    bound holds of every such pair, as the evaluations above show.) *)
Theorem score_not_negative (vecA vecB : list float) :
  forallb (PrimFloat.leb 0) vecA = true ->
  forallb (PrimFloat.leb 0) vecB = true ->
  JS.isNaN (cosineSimilarity vecA vecB) = true \/
  PrimFloat.leb 0 (cosineSimilarity vecA vecB) = true.
Proof.
  intros HA HB.
  apply notNegative_leb_zero, cosineSimilarity_notNegative; assumption.
Qed.

Lemma score_not_negative_witness :
  (JS.isNaN (cosineSimilarity [1; 1; 1]%float [1; 0; 2]%float) = true \/
   PrimFloat.leb 0 (cosineSimilarity [1; 1; 1]%float [1; 0; 2]%float) = true) /\
  (JS.isNaN (cosineSimilarity Examples.underflowA Examples.underflowB) = true \/
   PrimFloat.leb 0 (cosineSimilarity Examples.underflowA Examples.underflowB) = true) /\
  (JS.isNaN (cosineSimilarity [1e200]%float [1e200]%float) = true \/
   PrimFloat.leb 0 (cosineSimilarity [1e200]%float [1e200]%float) = true).
Proof.
  split; [|split].
  - apply (score_not_negative [1; 1; 1]%float [1; 0; 2]%float); vm_compute; reflexivity.
  - apply (score_not_negative Examples.underflowA Examples.underflowB);
      vm_compute; reflexivity.
  - apply (score_not_negative [1e200]%float [1e200]%float); vm_compute; reflexivity.
Defined.

(** * Further properties of the store *)

(** ** Every embedding has 384 components *)

Lemma setAt_length {A : Type} (i : nat) (v : A) (l : list A) :
  List.length (JS.setAt i v l) = List.length l.
Proof.
  revert i. induction l as [|x l IH]; intros [|i]; simpl; auto.
Qed.

Lemma fold_setAt_length {A B : Type} (h : B -> nat) (v : B -> A) (l : list B) (e : list A) :
  List.length (fold_left (fun e x => JS.setAt (h x) (v x) e) l e) = List.length e.
Proof.
  revert e. induction l as [|x l IH]; intros e; simpl.
  - reflexivity.
  - rewrite IH. apply setAt_length.
Qed.

Lemma embedding_length (st : Store) (text : string) :
  List.length (createEmbedding st text) = 384.
Proof.
  unfold createEmbedding. cbv zeta.
  rewrite (fold_setAt_length snd
             (fun fi : string * nat => component _ _ (fst fi))).
  apply repeat_length.
Qed.

(** X1: The vector that [createEmbedding] returns has length 384 for every text
    and every store. *)
Theorem createEmbedding_length (st : Store) (text : string) :
  List.length (createEmbedding st text) = 384.
Proof. exact (embedding_length st text). Qed.

(** ** Every stored chunk is longer than 50 characters *)

Lemma addSentence_long (g : Grouping) (sentence : string) :
  Forall long (chunks g) -> Forall long (chunks (addSentence g sentence)).
Proof.
  intros H. unfold addSentence.
  destruct (String.length (JS.trim sentence) <? 10); [exact H|].
  destruct ((0 <? currentLength g)
            && (200 <? currentLength g + List.length (JS.splitSpaces (JS.trim sentence))));
    cbn [chunks]; [|exact H].
  destruct (50 <? String.length (currentChunk g)) eqn:E; [|exact H].
  apply Forall_app. split; [exact H|].
  constructor; [|constructor]. apply Nat.ltb_lt. exact E.
Qed.

Lemma sentenceChunks_long (sentences : list string) :
  Forall long (sentenceChunks sentences).
Proof.
  unfold sentenceChunks.
  assert (G : forall g, Forall long (chunks g) ->
                        Forall long (chunks (fold_left addSentence sentences g))).
  { induction sentences as [|s l IH]; intros g H; simpl.
    - exact H.
    - apply IH. apply addSentence_long. exact H. }
  set (g := fold_left addSentence sentences _).
  assert (Hg : Forall long (chunks g)) by (apply G; constructor).
  destruct (50 <? String.length (currentChunk g)) eqn:E; [|exact Hg].
  apply Forall_app. split; [exact Hg|].
  constructor; [|constructor]. apply Nat.ltb_lt. exact E.
Qed.

Lemma paragraphChunks_long (content : string) : Forall long (paragraphChunks content).
Proof.
  unfold paragraphChunks. apply Forall_forall. intros p Hp.
  apply filter_In in Hp. destruct Hp as [_ Hp]. apply Nat.ltb_lt. exact Hp.
Qed.

Lemma wordChunks_long (content : string) : Forall long (wordChunks content).
Proof.
  unfold wordChunks. apply Forall_forall. intros c Hc.
  apply in_flat_map in Hc. destruct Hc as [j [_ Hc]].
  destruct (50 <? String.length _) eqn:E in Hc.
  - destruct Hc as [<-|[]]. apply Nat.ltb_lt. exact E.
  - destruct Hc.
Qed.

Lemma chunkContent_long (content : string) : Forall long (chunkContent content).
Proof.
  unfold chunkContent, fallbackChunks.
  destruct (0 <? List.length (JS.matchSentences content)).
  - apply sentenceChunks_long.
  - destruct ((List.length (paragraphChunks content) <=? 1)
              && (500 <? String.length content)).
    + apply wordChunks_long.
    + apply paragraphChunks_long.
Qed.

Lemma append_length (s t : string) :
  String.length (s ++ t) = String.length s + String.length t.
Proof.
  induction s as [|c s IH]; simpl; auto.
Qed.

Lemma withTitle_long (title : string) (chunks : list string) :
  Forall long chunks -> Forall long (withTitle title chunks).
Proof.
  intros H. unfold withTitle. destruct chunks as [|first rest]; [constructor|].
  destruct (String.eqb title ""); [exact H|].
  inversion H as [|x l Hfirst Hrest]; subst. constructor; [|exact Hrest].
  unfold long in *. rewrite !append_length. lia.
Qed.

Lemma combine_seq_fst {A : Type} (l : list A) (k : nat) (x : A * nat) :
  In x (combine l (seq k (List.length l))) -> In (fst x) l.
Proof.
  destruct x as [a i]. intros H. apply in_combine_l in H. exact H.
Qed.

Lemma entriesOf_wellFormed (st : Store) (docIndex : nat) (doc : Document) :
  Forall wellFormed (entriesOf st docIndex doc).
Proof.
  unfold entriesOf. apply Forall_forall. intros e He.
  apply in_map_iff in He. destruct He as [ci [<- Hci]].
  apply combine_seq_fst in Hci.
  split; cbn [content embedding].
  - pose proof (withTitle_long (doc_title doc) _ (chunkContent_long (doc_content doc))) as H.
    rewrite Forall_forall in H. exact (H _ Hci).
  - apply embedding_length.
Qed.

(** [addDocuments] appends: on an initialized store the entries held before
    stay, unchanged and in place, and the entries of the documents follow,
    document by document. *)
Lemma addDocuments_fold_documents (l : list (Document * nat)) (st : Store) :
  documents
    (fold_left
       (fun s di =>
          {| documents := documents s ++ entriesOf s (snd di) (fst di);
             initialized := initialized s;
             stopWords := stopWords s |}) l st)
  = documents st ++ flat_map (fun di => entriesOf st (snd di) (fst di)) l.
Proof.
  revert st. induction l as [|di l IH]; intros st; simpl.
  - rewrite app_nil_r. reflexivity.
  - rewrite IH. cbn [documents]. rewrite <- app_assoc. reflexivity.
Qed.

Lemma addDocuments_result (st : Store) (docs : list Document) :
  snd (addDocuments st docs) = true /\
  initialized (fst (addDocuments st docs)) = true /\
  documents (fst (addDocuments st docs))
  = (if initialized st then documents st else [])
    ++ flat_map (fun di => entriesOf st (snd di) (fst di))
                (combine docs (seq 0 (List.length docs))).
Proof.
  split; [|split].
  - unfold addDocuments. destruct (initialized st); reflexivity.
  - apply addDocuments_initialized.
  - unfold addDocuments. destruct (initialized st) eqn:E; cbn [initialize negb fst].
    + apply addDocuments_fold_documents.
    + rewrite addDocuments_fold_documents. reflexivity.
Qed.

(** X3: [addDocuments] always reports success and leaves the store initialized;
    on an initialized store it keeps the entries held before as a prefix and
    appends the chunks of the documents in order; on a store that is not
    initialized it first drops whatever was held. *)
Theorem addDocuments_appends (st : Store) (docs : list Document) :
  snd (addDocuments st docs) = true /\
  initialized (fst (addDocuments st docs)) = true /\
  documents (fst (addDocuments st docs))
  = (if initialized st then documents st else [])
    ++ flat_map (fun di => entriesOf st (snd di) (fst di))
                (combine docs (seq 0 (List.length docs))).
Proof. exact (addDocuments_result st docs). Qed.

Lemma run_wellFormed (op : operation) (st : Store) :
  Forall wellFormed (documents st) -> Forall wellFormed (documents (run op st)).
Proof.
  intros H. destruct op; cbn [run].
  - constructor.
  - destruct (addDocuments_result st docs) as (_ & _ & ->).
    apply Forall_app. split.
    + destruct (initialized st); [exact H|constructor].
    + apply Forall_forall. intros e He. apply in_flat_map in He.
      destruct He as [di [_ He]].
      pose proof (entriesOf_wellFormed st (snd di) (fst di)) as W.
      rewrite Forall_forall in W. exact (W e He).
  - unfold queryRelevantContent. destruct (initialized st); cbn [initialize negb].
    + destruct (List.length (documents st) =? 0); exact H.
    + constructor.
  - constructor.
Qed.

(** X2: Whatever calls were made on a new store, every chunk it holds is longer
    than 50 characters and carries an embedding of 384 components. *)
Theorem stored_chunks_wellFormed (ops : list operation) (e : Entry) :
  In e (documents (after ops)) ->
  50 < String.length (content e) /\ List.length (embedding e) = 384.
Proof.
  assert (G : forall st, Forall wellFormed (documents st) ->
                         Forall wellFormed
                           (documents (fold_left (fun st op => run op st) ops st))).
  { induction ops as [|op ops IH]; intros st H; simpl.
    - exact H.
    - apply IH. apply run_wellFormed. exact H. }
  intros He. pose proof (G fresh (Forall_nil _)) as W.
  rewrite Forall_forall in W. exact (W e He).
Qed.

Lemma stored_chunks_wellFormed_witness :
  50 < String.length
         (content (nth 0 (documents (after [OpAddDocuments Examples.energyDocs]))
                       {| id := ""; content := "";
                          metadata := {| url := ""; title := "" |}; embedding := [] |}))
  /\ List.length
       (embedding (nth 0 (documents (after [OpAddDocuments Examples.energyDocs]))
                       {| id := ""; content := "";
                          metadata := {| url := ""; title := "" |}; embedding := [] |}))
     = 384.
Proof.
  apply (stored_chunks_wellFormed [OpAddDocuments Examples.energyDocs]).
  vm_compute. left. reflexivity.
Defined.

(** ** The score is symmetric *)

Lemma SFmul_comm (x y : spec_float) : SF64mul x y = SF64mul y x.
Proof.
  unfold SF64mul, SFmul.
  destruct x as [sx|sx| |sx mx ex], y as [sy|sy| |sy my ey];
    try reflexivity; try (rewrite (xorb_comm sx sy); reflexivity).
  rewrite (xorb_comm sx sy), (Pos.mul_comm mx my), (Z.add_comm ex ey). reflexivity.
Qed.

(** The binary64 product does not depend on the order of its factors. *)
Lemma float_mul_comm (x y : float) : (x * y)%float = (y * x)%float.
Proof.
  apply Prim2SF_inj. rewrite !FloatAxioms.mul_spec. apply SFmul_comm.
Qed.

Lemma sums_fold_swap (vecA vecB : list float) (d na nb : float) :
  fold_left
    (fun acc ab =>
       let '(dotProduct, normA, normB) := acc in
       let '(a, b) := ab in
       (dotProduct + a * b, normA + a * a, normB + b * b)%float)
    (combine vecB vecA) (d, nb, na)
  = let '(d', na', nb') :=
      fold_left
        (fun acc ab =>
           let '(dotProduct, normA, normB) := acc in
           let '(a, b) := ab in
           (dotProduct + a * b, normA + a * a, normB + b * b)%float)
        (combine vecA vecB) (d, na, nb) in
    (d', nb', na').
Proof.
  revert vecB d na nb. induction vecA as [|a vecA IH]; intros [|b vecB] d na nb;
    try reflexivity.
  cbn [combine fold_left]. rewrite (float_mul_comm b a). apply IH.
Qed.

(** X4: [cosineSimilarity(a, b)] and [cosineSimilarity(b, a)] are the same
    binary64 value, for all vectors, whatever their lengths and entries. *)
Theorem cosineSimilarity_symmetric (vecA vecB : list float) :
  cosineSimilarity vecA vecB = cosineSimilarity vecB vecA.
Proof.
  unfold cosineSimilarity, sums.
  rewrite (sums_fold_swap vecA vecB 0 0 0).
  destruct (fold_left _ (combine vecA vecB) _) as [[d na] nb].
  rewrite (orb_comm (PrimFloat.eqb nb 0) (PrimFloat.eqb na 0)).
  rewrite (float_mul_comm (PrimFloat.sqrt nb) (PrimFloat.sqrt na)).
  rewrite (Nat.min_comm (nonZero vecB) (nonZero vecA)).
  rewrite (Nat.max_comm (nonZero vecB) (nonZero vecA)).
  reflexivity.
Qed.

(** ** Size and head of the result *)

Lemma query_length_le (st : Store) (queryText : string) (limit : nat) :
  List.length (snd (queryRelevantContent st queryText limit)) <= limit.
Proof.
  unfold queryRelevantContent.
  destruct (initialized st); cbn [initialize negb snd].
  - destruct (List.length (documents st) =? 0); cbn [snd]; [apply Nat.le_0_l|].
    unfold rank, JS.slice. apply firstn_le_length.
  - apply Nat.le_0_l.
Qed.

(** X6: A query returns at most [limit] results. *)
Theorem query_at_most_limit (st : Store) (queryText : string) (limit : nat) :
  List.length (snd (queryRelevantContent st queryText limit)) <= limit.
Proof. exact (query_length_le st queryText limit). Qed.

Lemma consider_extends (limit : nat) (d : Dedup) (result : Scored) :
  exists more, uniqueResults (consider limit d result) = uniqueResults d ++ more.
Proof.
  unfold consider.
  destruct (negb (has (seenUrls d) (url (s_metadata result)))).
  - exists [result]. reflexivity.
  - destruct (List.length (uniqueResults d) <? limit);
      [|exists []; rewrite app_nil_r; reflexivity].
    destruct (find _ (uniqueResults d)) as [e|];
      [|exists []; rewrite app_nil_r; reflexivity].
    destruct (PrimFloat.ltb (contentSimilarity (s_content e) (s_content result)) 0.5).
    + exists [result]. reflexivity.
    + exists []. rewrite app_nil_r. reflexivity.
Qed.

Lemma dedup_extends (limit : nat) (l : list Scored) (d : Dedup) :
  exists more,
    uniqueResults (fold_left (consider limit) l d) = uniqueResults d ++ more.
Proof.
  revert d. induction l as [|x l IH]; intros d; simpl.
  - exists []. rewrite app_nil_r. reflexivity.
  - destruct (IH (consider limit d x)) as [more1 H1].
    destruct (consider_extends limit d x) as [more2 H2].
    exists (more2 ++ more1). rewrite H1, H2, app_assoc. reflexivity.
Qed.

Lemma queryWith_sortBy (st : Store) (queryText : string) (limit : nat) :
  queryWith (JS.sortBy byScore) st queryText limit = queryRelevantContent st queryText limit.
Proof. reflexivity. Qed.

Lemma rankWith_head (sort : list Scored -> list Scored)
  (st : Store) (queryText : string) (limit : nat) :
  1 <= limit ->
  hd_error (rankWith sort st queryText limit)
  = hd_error (filter (fun item => PrimFloat.ltb SIMILARITY_THRESHOLD (score item))
                     (sort (similarities st queryText))).
Proof.
  intros Hlimit. unfold rankWith, JS.slice. cbn [skipn].
  destruct (filter _ (sort (similarities st queryText))) as [|x rest].
  - destruct limit; reflexivity.
  - cbn [fold_left].
    destruct (dedup_extends limit rest
                (consider limit {| uniqueResults := []; seenUrls := [] |} x)) as [more H].
    rewrite H. unfold consider at 1. cbn [seenUrls has existsb negb uniqueResults app].
    destruct limit as [|limit]; [lia|]. reflexivity.
Qed.

Lemma queryWith_head (sort : list Scored -> list Scored)
  (st : Store) (queryText : string) (limit : nat) :
  sort [] = [] -> consistent st -> 1 <= limit ->
  hd_error (snd (queryWith sort st queryText limit))
  = hd_error (filter (fun item => PrimFloat.ltb 0.275 (score item))
                     (sort (similarities st queryText))).
Proof.
  intros Hs Hc Hlimit. unfold queryWith.
  destruct (initialized st) eqn:E; cbn [initialize negb snd].
  - destruct (List.length (documents st) =? 0) eqn:L; cbn [snd].
    + apply Nat.eqb_eq in L. apply length_zero_iff_nil in L.
      unfold similarities. rewrite L. cbn [map]. rewrite Hs. reflexivity.
    + apply rankWith_head. exact Hlimit.
  - unfold similarities. rewrite (Hc E). cbn [map]. rewrite Hs. reflexivity.
Qed.

(** The same at the order of [JS.sortBy]. *)
Lemma query_head (st : Store) (queryText : string) (limit : nat) :
  consistent st -> 1 <= limit ->
  hd_error (snd (queryRelevantContent st queryText limit))
  = hd_error (filter (fun item => PrimFloat.ltb 0.275 (score item))
                     (JS.sortBy byScore (similarities st queryText))).
Proof.
  intros Hc Hlimit. rewrite <- queryWith_sortBy.
  exact (queryWith_head (JS.sortBy byScore) st queryText limit eq_refl Hc Hlimit).
Qed.

(** X7: Whatever order the sort leaves the scored chunks in, on a consistent
    store and with a limit of at least 1 the first result of a query is the
    first chunk above the threshold in that order: it is never dropped by the
    removal of duplicates or by the limit.  The sort is any function on
    arrays that returns the empty array on the empty array. *)
Theorem query_head_whatever_order (sort : list Scored -> list Scored)
  (st : Store) (queryText : string) (limit : nat) :
  sort [] = [] -> consistent st -> 1 <= limit ->
  hd_error (snd (queryWith sort st queryText limit))
  = hd_error (filter (fun item => PrimFloat.ltb 0.275 (score item))
                     (sort (similarities st queryText))).
Proof. exact (queryWith_head sort st queryText limit). Qed.

Lemma query_head_whatever_order_witness :
  hd_error (snd (queryRelevantContent Examples.energyStore Examples.energyQuery 5))
  = hd_error (filter (fun item => PrimFloat.ltb 0.275 (score item))
                     (JS.sortBy byScore
                        (similarities Examples.energyStore Examples.energyQuery))) /\
  hd_error (snd (queryWith (@rev Scored) Examples.energyStore Examples.energyQuery 5))
  = hd_error (filter (fun item => PrimFloat.ltb 0.275 (score item))
                     (rev (similarities Examples.energyStore Examples.energyQuery))).
Proof.
  split.
  - rewrite <- queryWith_sortBy.
    apply (query_head_whatever_order (JS.sortBy byScore)
             Examples.energyStore Examples.energyQuery 5).
    + reflexivity.
    + intros H. vm_compute in H. discriminate H.
    + lia.
  - apply (query_head_whatever_order (@rev Scored)
             Examples.energyStore Examples.energyQuery 5).
    + reflexivity.
    + intros H. vm_compute in H. discriminate H.
    + lia.
Defined.

Lemma filter_nil_iff {A : Type} (p : A -> bool) (l : list A) :
  filter p l = [] <-> forall x, In x l -> p x = false.
Proof.
  induction l as [|y l IH]; simpl.
  - split; [intros _ x []|reflexivity].
  - destruct (p y) eqn:E.
    + split; [discriminate|]. intros H. rewrite (H y (or_introl eq_refl)) in E.
      discriminate E.
    + rewrite IH. split.
      * intros H x [<-|Hx]; auto.
      * intros H x Hx. apply H. right. exact Hx.
Qed.

(** X8: On a consistent store and with a limit of at least 1, a query returns
    the empty list exactly when no stored chunk scores above 0.275 against
    the query. *)
Theorem query_empty_iff_no_match (st : Store) (queryText : string) (limit : nat) :
  consistent st -> 1 <= limit ->
  (snd (queryRelevantContent st queryText limit) = [] <->
   forall doc : Entry,
     In doc (documents st) ->
     PrimFloat.ltb 0.275
       (cosineSimilarity (createEmbedding st queryText) (embedding doc)) = false).
Proof.
  intros Hc Hlimit.
  pose proof (query_head st queryText limit Hc Hlimit) as H.
  assert (Hnil : forall l : list Scored, l = [] <-> hd_error l = None).
  { intros [|x l]; simpl; split; congruence. }
  rewrite Hnil, H, <- Hnil, filter_nil_iff.
  split.
  - intros F doc Hdoc.
    apply (F {| s_content := content doc; s_metadata := metadata doc;
                score := cosineSimilarity (createEmbedding st queryText) (embedding doc) |}).
    apply sortBy_In. unfold similarities. apply in_map_iff. exists doc. auto.
  - intros F x Hx. apply sortBy_In in Hx. unfold similarities in Hx.
    apply in_map_iff in Hx. destruct Hx as [doc [<- Hdoc]]. cbn [score].
    exact (F doc Hdoc).
Qed.

Lemma query_empty_iff_no_match_witness :
  List.length (documents Examples.hydroStore) = 1 /\
  (forall doc : Entry,
     In doc (documents Examples.hydroStore) ->
     PrimFloat.ltb 0.275
       (cosineSimilarity (createEmbedding Examples.hydroStore "solar") (embedding doc))
     = false) /\
  List.length (documents Examples.energyStore) = 3 /\
  ~ (forall doc : Entry,
       In doc (documents Examples.energyStore) ->
       PrimFloat.ltb 0.275
         (cosineSimilarity (createEmbedding Examples.energyStore Examples.energyQuery)
                           (embedding doc))
       = false) /\
  snd (queryRelevantContent Examples.sameUrlStore "x" 5) = [].
Proof.
  split; [vm_compute; reflexivity|]. split; [|split; [vm_compute; reflexivity|split]].
  - apply (proj1 (query_empty_iff_no_match Examples.hydroStore "solar" 5
                    ltac:(intros H; vm_compute in H; discriminate H) ltac:(lia))).
    vm_compute. reflexivity.
  - intros F.
    apply (proj2 (query_empty_iff_no_match Examples.energyStore Examples.energyQuery 5
                    ltac:(intros H; vm_compute in H; discriminate H) ltac:(lia))) in F.
    vm_compute in F. discriminate F.
  - apply (proj2 (query_empty_iff_no_match Examples.sameUrlStore "x" 5
                    ltac:(intros H; vm_compute in H; discriminate H) ltac:(lia))).
    intros doc Hin. vm_compute in Hin.
    destruct Hin as [<-|[<-|[<-|[]]]]; vm_compute; reflexivity.
Defined.

(** X10: A query never changes what a later query returns: the second of two
    queries returns what it would have returned without the first. *)
Theorem query_does_not_disturb
  (st : Store) (q1 q2 : string) (limit1 limit2 : nat) :
  snd (queryRelevantContent (fst (queryRelevantContent st q1 limit1)) q2 limit2)
  = snd (queryRelevantContent st q2 limit2).
Proof.
  unfold queryRelevantContent at 2 3.
  destruct (initialized st) eqn:E; cbn [initialize negb fst snd].
  - destruct (List.length (documents st) =? 0) eqn:L; cbn [fst].
    + unfold queryRelevantContent. rewrite E, L. reflexivity.
    + unfold queryRelevantContent. rewrite E, L. reflexivity.
  - reflexivity.
Qed.

(** ** A query with no significant word *)

Lemma countUnigrams_none (st : Store) (words : list string) (features : Obj.t) :
  forallb (fun w => negb (significant st w)) words = true ->
  countUnigrams st words features = features.
Proof.
  unfold countUnigrams. revert features.
  induction words as [|w words IH]; intros features H; simpl in *.
  - reflexivity.
  - apply andb_true_iff in H. destruct H as [Hw H].
    apply negb_true_iff in Hw. rewrite Hw. apply IH. exact H.
Qed.

Lemma countBigrams_fold_none (st : Store) (pairs : list (string * string)) (features : Obj.t) :
  (forall p, In p pairs -> significant st (fst p) = false) ->
  fold_left
    (fun features pair =>
       let '(word1, word2) := pair in
       if (2 <? String.length word1) && (2 <? String.length word2)
          && negb (has (stopWords st) word1) && negb (has (stopWords st) word2)
       then Obj.bump (word1 ++ "_" ++ word2)%string 0.8 "0.8" features
       else features)
    pairs features = features.
Proof.
  revert features. induction pairs as [|[w1 w2] pairs IH]; intros features H.
  - reflexivity.
  - cbn [fold_left].
    assert (Hw : significant st w1 = false) by (apply (H (w1, w2)); left; reflexivity).
    unfold significant in Hw.
    replace ((2 <? String.length w1) && (2 <? String.length w2)
             && negb (has (stopWords st) w1) && negb (has (stopWords st) w2))
      with false.
    + apply IH. intros p Hp. apply H. right. exact Hp.
    + destruct (2 <? String.length w1), (2 <? String.length w2),
        (negb (has (stopWords st) w1)), (negb (has (stopWords st) w2));
        simpl in *; congruence.
Qed.

Lemma countBigrams_none (st : Store) (words : list string) (features : Obj.t) :
  forallb (fun w => negb (significant st w)) words = true ->
  countBigrams st words features = features.
Proof.
  intros H. unfold countBigrams. apply countBigrams_fold_none.
  intros [w1 w2] Hp. apply in_combine_l in Hp. cbn [fst].
  rewrite forallb_forall in H. apply negb_true_iff. apply H. exact Hp.
Qed.

(** A text none of whose words is significant (each has at most two
    characters or is a stop word) embeds to the zero vector. *)
Lemma createEmbedding_no_feature (st : Store) (text : string) :
  forallb (fun w => negb (significant st w)) (JS.splitSpaces (cleanText text)) = true ->
  createEmbedding st text = repeat 0%float 384.
Proof.
  intros H. unfold createEmbedding. cbv zeta.
  rewrite (countUnigrams_none st _ [] H), (countBigrams_none st _ [] H).
  reflexivity.
Qed.

Lemma sums_zero_left (n : nat) (vecB : list float) (d nb : float) :
  exists d' nb',
    fold_left
      (fun acc ab =>
         let '(dotProduct, normA, normB) := acc in
         let '(a, b) := ab in
         (dotProduct + a * b, normA + a * a, normB + b * b)%float)
      (combine (repeat 0%float n) vecB) (d, 0%float, nb)
    = (d', 0%float, nb').
Proof.
  revert vecB d nb. induction n as [|n IH]; intros vecB d nb.
  - exists d, nb. reflexivity.
  - destruct vecB as [|b vecB].
    + exists d, nb. reflexivity.
    + cbn [repeat combine fold_left].
      change (0 + 0 * 0)%float with 0%float. apply IH.
Qed.

(** The zero vector scores 0 against every vector. *)
Lemma cosineSimilarity_zero_left (n : nat) (vecB : list float) :
  cosineSimilarity (repeat 0%float n) vecB = 0%float.
Proof.
  unfold cosineSimilarity, sums.
  destruct (sums_zero_left n vecB 0 0) as [d' [nb' H]]. rewrite H.
  reflexivity.
Qed.

(** X9: A query none of whose words is significant (stop words and words of at
    most two characters only, or no word at all) returns the empty list,
    whatever the store holds. *)
Theorem query_without_significant_word
  (st : Store) (queryText : string) (limit : nat) :
  forallb (fun w => negb (significant st w)) (JS.splitSpaces (cleanText queryText)) = true ->
  snd (queryRelevantContent st queryText limit) = [].
Proof.
  intros H. unfold queryRelevantContent.
  destruct (initialized st); cbn [initialize negb snd]; [|reflexivity].
  destruct (List.length (documents st) =? 0); cbn [snd]; [reflexivity|].
  unfold rank.
  assert (F : filter (fun item => PrimFloat.ltb SIMILARITY_THRESHOLD (score item))
                     (JS.sortBy byScore (similarities st queryText)) = []).
  { apply filter_nil_iff. intros x Hx. apply sortBy_In in Hx.
    unfold similarities in Hx. apply in_map_iff in Hx.
    destruct Hx as [doc [<- _]]. cbn [score].
    rewrite (createEmbedding_no_feature st queryText H).
    rewrite cosineSimilarity_zero_left. reflexivity. }
  rewrite F. unfold JS.slice. cbn [fold_left uniqueResults skipn]. apply firstn_nil.
Qed.

Lemma query_without_significant_word_witness :
  snd (queryRelevantContent Examples.energyStore "What is it to be at all, and by an or?" 5) = [].
Proof.
  apply (query_without_significant_word Examples.energyStore "What is it to be at all, and by an or?" 5).
  vm_compute. reflexivity.
Defined.

(** ** Cutting a text at a sentence boundary *)

Lemma isTerminator_iff (c : ascii) :
  JS.isTerminator c = true <-> c = "."%char \/ c = "!"%char \/ c = "?"%char.
Proof.
  unfold JS.isTerminator, JS.code. split.
  - intros H. apply orb_true_iff in H. destruct H as [H|H].
    + apply orb_true_iff in H. destruct H as [H|H]; apply Nat.eqb_eq in H;
        apply (f_equal ascii_of_nat) in H; rewrite ascii_nat_embedding in H; auto.
    + apply Nat.eqb_eq in H.
      apply (f_equal ascii_of_nat) in H; rewrite ascii_nat_embedding in H; auto.
  - intros [->|[->| ->]]; reflexivity.
Qed.

(** What [lastIndexBelow] returns: [-1] when [c] occurs at no index below
    [n], and otherwise the largest such index. *)
Lemma lastIndexBelow_spec (c : ascii) (s : string) (n : nat) :
  (JS.lastIndexBelow c s n = (-1)%Z /\
   forall i, i < n -> String.get i s <> Some c) \/
  (exists k, JS.lastIndexBelow c s n = Z.of_nat k /\ k < n /\
             String.get k s = Some c /\
             forall i, i < n -> String.get i s = Some c -> i <= k).
Proof.
  revert s. induction n as [|n IH]; intros s.
  - left. split; [destruct s; reflexivity|]. intros i Hi. lia.
  - destruct s as [|d s].
    + left. split; [reflexivity|]. intros i _. destruct i; discriminate.
    + cbn [JS.lastIndexBelow]. destruct (IH s) as [[Hr Hnone]|[k (Hr & Hk & Hget & Hmax)]].
      * rewrite Hr. cbn [Z.leb Z.compare].
        destruct (Ascii.eqb_spec d c) as [E|E].
        -- right. exists 0. subst d.
           split; [reflexivity|]. split; [lia|]. split; [reflexivity|].
           intros [|i] Hi Hg; [lia|]. cbn [String.get] in Hg.
           exfalso. apply (Hnone i); [lia|exact Hg].
        -- left. split; [reflexivity|].
           intros [|i] Hi; cbn [String.get].
           ++ intros Hg. injection Hg as Hg. contradiction.
           ++ apply Hnone. lia.
      * rewrite Hr. assert (L : (0 <=? Z.of_nat k)%Z = true) by (apply Z.leb_le; lia).
        rewrite L. right. exists (S k).
        split; [lia|]. split; [lia|]. split; [exact Hget|].
        intros [|i] Hi Hg; [lia|]. cbn [String.get] in Hg.
        apply Hmax in Hg; lia.
Qed.

(** It is [-1] when no terminator lies at an index up to [maxLength], and
    otherwise the largest index up to [maxLength] that holds one. *)
Lemma boundaryOf_spec (text : string) (maxLength : nat) :
  (boundaryOf text maxLength = (-1)%Z /\
   forall i c, i <= maxLength -> String.get i text = Some c -> JS.isTerminator c = false) \/
  (exists k c, boundaryOf text maxLength = Z.of_nat k /\ k <= maxLength /\
               String.get k text = Some c /\ JS.isTerminator c = true /\
               forall i c', i <= maxLength -> String.get i text = Some c' ->
                            JS.isTerminator c' = true -> i <= k).
Proof.
  unfold boundaryOf, JS.lastIndexOf.
  destruct (lastIndexBelow_spec "." text (S maxLength)) as [[R1 N1]|[k1 (R1 & K1 & G1 & M1)]];
  destruct (lastIndexBelow_spec "!" text (S maxLength)) as [[R2 N2]|[k2 (R2 & K2 & G2 & M2)]];
  destruct (lastIndexBelow_spec "?" text (S maxLength)) as [[R3 N3]|[k3 (R3 & K3 & G3 & M3)]];
  rewrite R1, R2, R3.
  1: { left. split; [reflexivity|]. intros i c Hi Hg.
       destruct (JS.isTerminator c) eqn:T; [|reflexivity].
       apply isTerminator_iff in T. exfalso.
       destruct T as [->|[->| ->]];
         [apply (N1 i)|apply (N2 i)|apply (N3 i)]; try lia; exact Hg. }
  all: right.
  all: assert (T1 : JS.isTerminator "." = true) by reflexivity.
  all: assert (T2 : JS.isTerminator "!" = true) by reflexivity.
  all: assert (T3 : JS.isTerminator "?" = true) by reflexivity.
  all: match goal with
       | |- context [Z.max (Z.max ?a ?b) ?c] =>
           let m := fresh "m" in
           remember (Z.max (Z.max a b) c) as m eqn:Em;
           assert (Hm : (m = a \/ m = b \/ m = c) /\ (a <= m)%Z /\ (b <= m)%Z /\ (c <= m)%Z)
             by (subst m; lia)
       end.
  all: destruct Hm as (Hcase & Ha & Hb & Hc).
  all: assert (Hmax : forall i c', i <= maxLength -> String.get i text = Some c' ->
                       JS.isTerminator c' = true -> (Z.of_nat i <= m)%Z)
         by (intros i c' Hi Hg T; apply isTerminator_iff in T;
             destruct T as [->|[->| ->]];
             first [ specialize (M1 i ltac:(lia) Hg); lia
                   | specialize (M2 i ltac:(lia) Hg); lia
                   | specialize (M3 i ltac:(lia) Hg); lia
                   | exfalso; apply (N1 i ltac:(lia) Hg)
                   | exfalso; apply (N2 i ltac:(lia) Hg)
                   | exfalso; apply (N3 i ltac:(lia) Hg) ]).
  all: destruct Hcase as [E|[E|E]]; try lia.
  all: first
         [ exists k1, "."%char; repeat split; [lia|lia|exact G1|
             intros i c' Hi Hg T; specialize (Hmax i c' Hi Hg T); lia]
         | exists k2, "!"%char; repeat split; [lia|lia|exact G2|
             intros i c' Hi Hg T; specialize (Hmax i c' Hi Hg T); lia]
         | exists k3, "?"%char; repeat split; [lia|lia|exact G3|
             intros i c' Hi Hg T; specialize (Hmax i c' Hi Hg T); lia] ].
Qed.

Lemma substring0_length (s : string) (m : nat) :
  String.length (JS.substring0 s m) = Nat.min m (String.length s).
Proof.
  unfold JS.substring0. revert s. induction m as [|m IH]; intros [|c s]; simpl; auto.
Qed.

Lemma substring0_get (s : string) (m p : nat) :
  p < m -> String.get p (JS.substring0 s m) = String.get p s.
Proof.
  unfold JS.substring0. revert s p. induction m as [|m IH]; intros s p H; [lia|].
  destruct s as [|c s]; [reflexivity|]. simpl.
  destruct p as [|p]; [reflexivity|]. apply IH. lia.
Qed.

Lemma substring0_prefix (s : string) (m : nat) :
  exists rest, s = (JS.substring0 s m ++ rest)%string.
Proof.
  unfold JS.substring0. revert s. induction m as [|m IH]; intros s.
  - exists s. destruct s; reflexivity.
  - destruct s as [|c s]; [exists ""; reflexivity|].
    destruct (IH s) as [rest H]. exists rest. simpl. f_equal. exact H.
Qed.

Lemma substring0_all (s : string) (m : nat) :
  String.length s <= m -> JS.substring0 s m = s.
Proof.
  unfold JS.substring0. revert s. induction m as [|m IH]; intros [|c s] H; simpl in *;
    try reflexivity; try lia.
  f_equal. apply IH. lia.
Qed.

Lemma get_some_lt (s : string) (k : nat) (c : ascii) :
  String.get k s = Some c -> k < String.length s.
Proof.
  revert k. induction s as [|d s IH]; intros [|k] H; simpl in *; try discriminate; try lia.
  apply IH in H. lia.
Qed.

Lemma lastIndexBelow_substring0 (c : ascii) (s : string) (n k : nat) :
  n <= k -> JS.lastIndexBelow c (JS.substring0 s k) n = JS.lastIndexBelow c s n.
Proof.
  unfold JS.substring0. revert s k. induction n as [|n IH]; intros s k H.
  - destruct (String.substring 0 k s), s; reflexivity.
  - destruct k as [|k]; [lia|]. destruct s as [|d s]; [reflexivity|].
    simpl. rewrite IH by lia. reflexivity.
Qed.

Lemma boundaryOf_substring0 (text : string) (maxLength : nat) :
  boundaryOf (JS.substring0 text (S maxLength)) maxLength = boundaryOf text maxLength.
Proof.
  unfold boundaryOf, JS.lastIndexOf.
  rewrite !lastIndexBelow_substring0 by lia. reflexivity.
Qed.

(** The three cases of [trimToSentenceBoundary]. *)
Lemma trim_cases (text : string) (maxLength : nat) :
  (String.length text <= maxLength /\
   ArchiveSearchService.trimToSentenceBoundary text maxLength = text) \/
  (maxLength < String.length text /\
   exists k c,
     boundaryOf text maxLength = Z.of_nat k /\ 1 <= k <= maxLength /\
     String.get k text = Some c /\ JS.isTerminator c = true /\
     (forall i c', i <= maxLength -> String.get i text = Some c' ->
                   JS.isTerminator c' = true -> i <= k) /\
     ArchiveSearchService.trimToSentenceBoundary text maxLength
     = JS.substring0 text (S k)) \/
  (maxLength < String.length text /\
   (forall i c, 1 <= i <= maxLength -> String.get i text = Some c ->
                JS.isTerminator c = false) /\
   ArchiveSearchService.trimToSentenceBoundary text maxLength
   = JS.substring0 text maxLength).
Proof.
  unfold ArchiveSearchService.trimToSentenceBoundary.
  fold (boundaryOf text maxLength).
  destruct (String.length text <=? maxLength) eqn:L.
  - left. apply Nat.leb_le in L. auto.
  - right. apply Nat.leb_gt in L.
    destruct (boundaryOf_spec text maxLength) as [[R N]|[k [c (R & K & G & T & M)]]].
    + right. rewrite R. cbn [Z.ltb Z.compare]. split; [exact L|]. split; [|reflexivity].
      intros i c Hi Hg. apply (N i c); [lia|exact Hg].
    + rewrite R. destruct k as [|k].
      * right. cbn [Z.of_nat Z.ltb Z.compare]. split; [exact L|]. split; [|reflexivity].
        intros i c' Hi Hg. destruct (JS.isTerminator c') eqn:T'; [|reflexivity].
        specialize (M i c' ltac:(lia) Hg T'). lia.
      * left. assert (P : (0 <? Z.of_nat (S k))%Z = true) by (apply Z.ltb_lt; lia).
        rewrite P. split; [exact L|]. exists (S k), c.
        split; [reflexivity|]. split; [lia|]. split; [exact G|]. split; [exact T|].
        split; [exact M|]. f_equal. lia.
Qed.

Lemma trim_prefix_bound (text : string) (maxLength : nat) :
  (exists rest,
      text = (ArchiveSearchService.trimToSentenceBoundary text maxLength ++ rest)%string) /\
  String.length (ArchiveSearchService.trimToSentenceBoundary text maxLength)
  <= S maxLength.
Proof.
  destruct (trim_cases text maxLength)
    as [[L ->]|[[L [k [c (_ & K & _ & _ & _ & ->)]]]|[L [_ ->]]]].
  - split; [|lia]. exists "". clear L.
    induction text as [|d s IH]; simpl; [reflexivity|]. f_equal. exact IH.
  - split; [apply substring0_prefix|]. rewrite substring0_length. lia.
  - split; [apply substring0_prefix|]. rewrite substring0_length. lia.
Qed.

(** X15: The result of [trimToSentenceBoundary] is a prefix of the text, of at
    most [maxLength + 1] characters. *)
Theorem trim_is_short_prefix (text : string) (maxLength : nat) :
  (exists rest,
      text = (ArchiveSearchService.trimToSentenceBoundary text maxLength ++ rest)%string) /\
  String.length (ArchiveSearchService.trimToSentenceBoundary text maxLength)
  <= S maxLength.
Proof. exact (trim_prefix_bound text maxLength). Qed.

Lemma trim_last_terminator
  (text : string) (maxLength i : nat) (c : ascii) :
  maxLength < String.length text ->
  1 <= i <= maxLength -> String.get i text = Some c -> JS.isTerminator c = true ->
  exists k t,
    i <= k <= maxLength /\
    String.get k text = Some t /\ JS.isTerminator t = true /\
    (forall j t', k < j <= maxLength -> String.get j text = Some t' ->
                  JS.isTerminator t' = false) /\
    ArchiveSearchService.trimToSentenceBoundary text maxLength
    = JS.substring0 text (S k) /\
    String.length (ArchiveSearchService.trimToSentenceBoundary text maxLength) = S k /\
    String.get k (ArchiveSearchService.trimToSentenceBoundary text maxLength) = Some t.
Proof.
  intros L Hi Hg T.
  destruct (trim_cases text maxLength)
    as [[L' _]|[[_ [k [t (_ & K & G & Tk & M & E)]]]|[_ [N _]]]].
  - lia.
  - exists k, t. pose proof (get_some_lt _ _ _ G) as Hk.
    split; [split; [exact (M i c ltac:(lia) Hg T)|lia]|].
    split; [exact G|]. split; [exact Tk|]. split.
    + intros j t' Hj Hgj. destruct (JS.isTerminator t') eqn:T'; [|reflexivity].
      specialize (M j t' ltac:(lia) Hgj T'). lia.
    + rewrite E. split; [reflexivity|]. split.
      * rewrite substring0_length. lia.
      * rewrite substring0_get by lia. exact G.
  - rewrite (N i c Hi Hg) in T. discriminate T.
Qed.

(** X16: A text longer than [maxLength] that holds a terminator at an index from
    1 to [maxLength] is cut just after the last terminator at an index up to
    [maxLength]: the result ends with that terminator. *)
Theorem trim_ends_at_last_terminator
  (text : string) (maxLength i : nat) (c : ascii) :
  maxLength < String.length text ->
  1 <= i <= maxLength -> String.get i text = Some c -> JS.isTerminator c = true ->
  exists k t,
    i <= k <= maxLength /\
    String.get k text = Some t /\ JS.isTerminator t = true /\
    (forall j t', k < j <= maxLength -> String.get j text = Some t' ->
                  JS.isTerminator t' = false) /\
    ArchiveSearchService.trimToSentenceBoundary text maxLength
    = JS.substring0 text (S k) /\
    String.length (ArchiveSearchService.trimToSentenceBoundary text maxLength) = S k /\
    String.get k (ArchiveSearchService.trimToSentenceBoundary text maxLength) = Some t.
Proof. exact (trim_last_terminator text maxLength i c). Qed.

Lemma trim_ends_at_last_terminator_witness :
  exists k t,
    4000 <= k <= 4000 /\
    String.get k Examples.lettersDotLetters = Some t /\ JS.isTerminator t = true /\
    (forall j t', k < j <= 4000 -> String.get j Examples.lettersDotLetters = Some t' ->
                  JS.isTerminator t' = false) /\
    ArchiveSearchService.trimToSentenceBoundary Examples.lettersDotLetters 4000
    = JS.substring0 Examples.lettersDotLetters (S k) /\
    String.length (ArchiveSearchService.trimToSentenceBoundary Examples.lettersDotLetters 4000)
    = S k /\
    String.get k (ArchiveSearchService.trimToSentenceBoundary Examples.lettersDotLetters 4000)
    = Some t.
Proof.
  apply (trim_ends_at_last_terminator Examples.lettersDotLetters 4000 4000 "."%char).
  - vm_compute. lia.
  - lia.
  - vm_compute. reflexivity.
  - reflexivity.
Defined.



(** X17: A text longer than [maxLength] with no terminator at an index from 1 to
    [maxLength] is cut to its first [maxLength] characters, also when its
    character at index 0 is a terminator. *)
Theorem trim_hard_cut (text : string) (maxLength : nat) :
  maxLength < String.length text ->
  (forall i c, 1 <= i <= maxLength -> String.get i text = Some c ->
               JS.isTerminator c = false) ->
  ArchiveSearchService.trimToSentenceBoundary text maxLength
  = JS.substring0 text maxLength /\
  String.length (ArchiveSearchService.trimToSentenceBoundary text maxLength) = maxLength.
Proof.
  intros L N.
  destruct (trim_cases text maxLength)
    as [[L' _]|[[_ [k [t (_ & K & G & Tk & _ & _)]]]|[_ [_ E]]]].
  - lia.
  - rewrite (N k t K G) in Tk. discriminate Tk.
  - rewrite E. split; [reflexivity|]. rewrite substring0_length. lia.
Qed.

Lemma trim_hard_cut_witness :
  ArchiveSearchService.trimToSentenceBoundary "abcdefgh" 3 = JS.substring0 "abcdefgh" 3 /\
  String.length (ArchiveSearchService.trimToSentenceBoundary "abcdefgh" 3) = 3.
Proof.
  apply (trim_hard_cut "abcdefgh" 3).
  - simpl. lia.
  - intros i c Hi Hg.
    assert (E : i = 1 \/ i = 2 \/ i = 3) by lia.
    destruct E as [->|[->| ->]]; simpl in Hg; injection Hg as <-; reflexivity.
Defined.

(** X18: Cutting is idempotent: a text that was cut is returned unchanged by a
    second cut at the same length. *)
Theorem trim_idempotent (text : string) (maxLength : nat) :
  ArchiveSearchService.trimToSentenceBoundary
    (ArchiveSearchService.trimToSentenceBoundary text maxLength) maxLength
  = ArchiveSearchService.trimToSentenceBoundary text maxLength.
Proof.
  destruct (trim_cases text maxLength)
    as [[L E]|[[L [k [c (R & K & G & T & M & E)]]]|[L [N E]]]].
  - rewrite E. exact E.
  - rewrite E. pose proof (get_some_lt _ _ _ G) as Hk.
    assert (Hlen : String.length (JS.substring0 text (S k)) = S k)
      by (rewrite substring0_length; lia).
    destruct (Nat.eq_dec k maxLength) as [->|Hne].
    + unfold ArchiveSearchService.trimToSentenceBoundary.
      fold (boundaryOf (JS.substring0 text (S maxLength)) maxLength).
      rewrite Hlen.
      assert (F : (S maxLength <=? maxLength) = false) by (apply Nat.leb_gt; lia).
      rewrite F, boundaryOf_substring0, R.
      assert (P : (0 <? Z.of_nat maxLength)%Z = true) by (apply Z.ltb_lt; lia).
      rewrite P. replace (Z.to_nat (Z.of_nat maxLength + 1)) with (S maxLength) by lia.
      apply substring0_all. lia.
    + unfold ArchiveSearchService.trimToSentenceBoundary. rewrite Hlen.
      assert (F : (S k <=? maxLength) = true) by (apply Nat.leb_le; lia).
      rewrite F. reflexivity.
  - rewrite E. unfold ArchiveSearchService.trimToSentenceBoundary.
    rewrite substring0_length.
    assert (F : (Nat.min maxLength (String.length text) <=? maxLength) = true)
      by (apply Nat.leb_le; lia).
    rewrite F. reflexivity.
Qed.

(** ** What the sentence pattern matches *)

Lemma matchFrom_pending (l body term : list ascii) :
  body <> [] -> term <> [] -> JS.matchSentencesFrom l body term <> [].
Proof.
  revert body term. induction l as [|c l IH]; intros body term Hb Ht.
  - simpl. destruct term; [contradiction|discriminate].
  - simpl. destruct (JS.isTerminator c).
    + destruct body as [|b body]; [contradiction|]. apply IH; discriminate.
    + destruct term; [contradiction|discriminate].
Qed.

Lemma matchFrom_body_nil_iff (l body : list ascii) :
  body <> [] ->
  (JS.matchSentencesFrom l body [] = [] <-> forallb nonTerminator l = true).
Proof.
  revert body. induction l as [|c l IH]; intros body Hb.
  - simpl. split; reflexivity.
  - simpl. unfold nonTerminator at 1. destruct (JS.isTerminator c) eqn:T.
    + destruct body as [|b body]; [contradiction|]. simpl. split; [|discriminate].
      intros H. exfalso. revert H. apply matchFrom_pending; discriminate.
    + simpl. apply IH. discriminate.
Qed.

Lemma matchFrom_nil_iff (l : list ascii) :
  JS.matchSentencesFrom l [] [] = [] <->
  exists l1 l2, l = l1 ++ l2 /\
                forallb JS.isTerminator l1 = true /\ forallb nonTerminator l2 = true.
Proof.
  induction l as [|c l IH].
  - simpl. split; [|reflexivity]. intros _. exists [], []. auto.
  - simpl. destruct (JS.isTerminator c) eqn:T.
    + rewrite IH. split.
      * intros [l1 [l2 (-> & H1 & H2)]]. exists (c :: l1), l2. simpl. rewrite T. auto.
      * intros [l1 [l2 (E & H1 & H2)]]. destruct l1 as [|d l1].
        -- simpl in E. subst l2. simpl in H2. unfold nonTerminator in H2 at 1.
           rewrite T in H2. discriminate H2.
        -- injection E as <- ->. simpl in H1. apply andb_true_iff in H1.
           exists l1, l2. intuition auto.
    + rewrite matchFrom_body_nil_iff by discriminate. split.
      * intros H. exists [], (c :: l). simpl. unfold nonTerminator at 1. rewrite T. auto.
      * intros [l1 [l2 (E & H1 & H2)]]. destruct l1 as [|d l1].
        -- simpl in E. subst l2. simpl in H2. apply andb_true_iff in H2. tauto.
        -- injection E as <- ->. simpl in H1. rewrite T in H1. discriminate H1.
Qed.

Lemma text_inj_nil (l : list (list ascii)) : map JS.text l = [] <-> l = [].
Proof.
  destruct l; simpl; split; congruence.
Qed.

(** X13: The sentence pattern finds no match exactly when no terminator comes
    after a character that is not one: the text is a run of terminators
    followed by a run of other characters (either may be empty). *)
Theorem matchSentences_nil_iff (s : string) :
  JS.matchSentences s = [] <->
  exists l1 l2, JS.chars s = l1 ++ l2 /\
                forallb JS.isTerminator l1 = true /\ forallb nonTerminator l2 = true.
Proof.
  unfold JS.matchSentences. rewrite text_inj_nil. apply matchFrom_nil_iff.
Qed.

Lemma forallb_rev {A : Type} (p : A -> bool) (l : list A) :
  forallb p (rev l) = forallb p l.
Proof.
  induction l as [|x l IH]; simpl; [reflexivity|].
  rewrite forallb_app, IH. simpl. rewrite andb_true_r. apply andb_comm.
Qed.

Lemma rev_not_nil {A : Type} (l : list A) : l <> [] -> rev l <> [].
Proof.
  intros H E. apply H. rewrite <- (rev_involutive l), E. reflexivity.
Qed.

(** The matches from a state of the scan, and what the scan has read of
    the text: the matches in order, then a last run that no terminator
    follows. *)
Lemma matchFrom_shape (l body term : list ascii) :
  body <> [] ->
  forallb nonTerminator body = true -> forallb JS.isTerminator term = true ->
  Forall sentenceShape (JS.matchSentencesFrom l body term) /\
  exists tail,
    forallb nonTerminator tail = true /\
    rev body ++ rev term ++ l = List.concat (JS.matchSentencesFrom l body term) ++ tail.
Proof.
  revert body term. induction l as [|c l IH]; intros body term Hb Hbody Hterm.
  - simpl. destruct term as [|t term].
    + split; [constructor|]. exists (rev body). rewrite forallb_rev.
      split; [exact Hbody|]. simpl. rewrite app_nil_r. reflexivity.
    + split.
      * constructor; [|constructor]. exists (rev body), (rev (t :: term)).
        rewrite rev_app_distr, !forallb_rev.
        split; [reflexivity|]. split; [apply rev_not_nil; exact Hb|].
        split; [apply rev_not_nil; discriminate|]. auto.
      * exists []. split; [reflexivity|].
        cbn [List.concat]. rewrite rev_app_distr, !app_nil_r. reflexivity.
  - simpl. destruct (JS.isTerminator c) eqn:T.
    + destruct body as [|b body]; [contradiction|].
      destruct (IH (b :: body) (c :: term)) as [F [tail [Ht E]]];
        [discriminate|exact Hbody|simpl; rewrite T; exact Hterm|].
      split; [exact F|]. exists tail. split; [exact Ht|].
      rewrite <- E. cbn [rev]. rewrite <- !app_assoc. reflexivity.
    + destruct term as [|t term].
      * destruct (IH (c :: body) []) as [F [tail [Ht E]]];
          [discriminate|simpl; unfold nonTerminator at 1; rewrite T; exact Hbody
          |reflexivity|].
        split; [exact F|]. exists tail. split; [exact Ht|].
        rewrite <- E. cbn [rev app]. rewrite <- !app_assoc. reflexivity.
      * destruct (IH [c] []) as [F [tail [Ht E]]];
          [discriminate|simpl; unfold nonTerminator; rewrite T; reflexivity
          |reflexivity|].
        split.
        -- constructor; [|exact F]. exists (rev body), (rev (t :: term)).
           rewrite rev_app_distr, !forallb_rev.
           split; [reflexivity|]. split; [apply rev_not_nil; exact Hb|].
           split; [apply rev_not_nil; discriminate|]. auto.
        -- exists tail. split; [exact Ht|].
           cbn [List.concat]. rewrite <- app_assoc, <- E.
           rewrite rev_app_distr. cbn [rev app]. rewrite <- !app_assoc. reflexivity.
Qed.

Lemma matchFrom_decompose (l : list ascii) :
  Forall sentenceShape (JS.matchSentencesFrom l [] []) /\
  exists lead tail,
    forallb JS.isTerminator lead = true /\ forallb nonTerminator tail = true /\
    l = lead ++ List.concat (JS.matchSentencesFrom l [] []) ++ tail.
Proof.
  induction l as [|c l IH].
  - split; [constructor|]. exists [], []. auto.
  - simpl. destruct (JS.isTerminator c) eqn:T.
    + destruct IH as [F [lead [tail (Hl & Ht & E)]]]. split; [exact F|].
      exists (c :: lead), tail. simpl. rewrite T. split; [exact Hl|].
      split; [exact Ht|]. f_equal. exact E.
    + destruct (matchFrom_shape l [c] []) as [F [tail [Ht E]]];
        [discriminate|simpl; unfold nonTerminator; rewrite T; reflexivity
        |reflexivity|].
      split; [exact F|]. exists [], tail. split; [reflexivity|].
      split; [exact Ht|]. exact E.
Qed.

(** X14: The matches of the sentence pattern in a text: each is a run of
    characters that are no terminators followed by a run of terminators,
    both non-empty; and the text is some terminators, then the matches in
    order with nothing between them, then a last run with no terminator. *)
Theorem matchSentences_decompose (s : string) :
  exists matches lead tail,
    JS.matchSentences s = map JS.text matches /\
    Forall sentenceShape matches /\
    forallb JS.isTerminator lead = true /\ forallb nonTerminator tail = true /\
    JS.chars s = lead ++ List.concat matches ++ tail.
Proof.
  destruct (matchFrom_decompose (JS.chars s)) as [F [lead [tail (Hl & Ht & E)]]].
  exists (JS.matchSentencesFrom (JS.chars s) [] []), lead, tail.
  split; [reflexivity|]. auto.
Qed.

(** ** The tiers of the chunking, from the text alone *)











(** ** Assembling the context *)

Lemma chars_text (l : list ascii) : JS.chars (JS.text l) = l.
Proof. apply list_ascii_of_string_of_list_ascii. Qed.

Lemma text_chars (s : string) : JS.text (JS.chars s) = s.
Proof. apply string_of_list_ascii_of_string. Qed.

Lemma chars_app (s t : string) : JS.chars (s ++ t) = JS.chars s ++ JS.chars t.
Proof.
  unfold JS.chars. induction s as [|c s IH]; simpl; [reflexivity|]. f_equal. exact IH.
Qed.

Lemma chars_length (s : string) : List.length (JS.chars s) = String.length s.
Proof.
  unfold JS.chars. induction s as [|c s IH]; simpl; auto.
Qed.

Lemma text_length (l : list ascii) : String.length (JS.text l) = List.length l.
Proof.
  unfold JS.text. induction l as [|c l IH]; simpl; auto.
Qed.

(** X20: Every search result that the method is given yields a context: with a
    non-empty list of search results the method does not return [null]. *)
Theorem search_results_give_context
  (st : Store) (archiveDocuments ddgResults : list Document) (query : string) :
  ddgResults <> [] ->
  exists context,
    snd (ArchiveSearchService.contextFor st archiveDocuments ddgResults query)
    = Some context.
Proof.
  intros Hd. unfold ArchiveSearchService.contextFor.
  destruct (List.length (archiveDocuments ++ ddgResults) =? 0) eqn:L.
  - apply Nat.eqb_eq in L. rewrite length_app in L.
    destruct ddgResults; [contradiction|simpl in L; lia].
  - cbn [initialize negb].
    pose proof (addDocuments_result
                  {| documents := []; initialized := true; stopWords := stopWords st |}
                  (archiveDocuments ++ ddgResults)) as (Hs & _ & _).
    destruct (addDocuments _ (archiveDocuments ++ ddgResults)) as [st2 added].
    cbn [snd] in Hs. subst added. cbn [negb].
    destruct (queryRelevantContent st2 query 5) as [st3 relevantChunks].
    assert (Hf : ArchiveSearchService.finalChunksOf ddgResults relevantChunks <> []).
    { unfold ArchiveSearchService.finalChunksOf.
      destruct (filter _ relevantChunks) as [|x l] eqn:F.
      - destruct ddgResults as [|d ddg]; [contradiction|]. cbn [List.length Nat.eqb Nat.ltb Nat.leb andb].
        destruct ddg; unfold JS.slice; cbn [skipn firstn map];
          intros E; apply app_eq_nil in E; destruct E as [_ E]; discriminate E.
      - cbn [List.length Nat.eqb andb]. intros E. rewrite E in F. discriminate F. }
    destruct (ArchiveSearchService.finalChunksOf ddgResults relevantChunks) as [|c cs];
      [contradiction|].
    cbn [List.length Nat.eqb snd]. eexists. reflexivity.
Qed.

Lemma search_results_give_context_witness :
  exists context,
    snd (ArchiveSearchService.contextFor fresh []
           (ArchiveSearchService.searchDocuments [("Sun", "http://s", "Sunny.")] 8)
           "rain")
    = Some context.
Proof.
  apply (search_results_give_context fresh []
           (ArchiveSearchService.searchDocuments [("Sun", "http://s", "Sunny.")] 8) "rain").
  discriminate.
Defined.

Lemma context_store (st : Store) (archiveDocuments ddgResults : list Document)
      (query : string) :
  fst (ArchiveSearchService.contextFor st archiveDocuments ddgResults query)
  = if List.length (archiveDocuments ++ ddgResults) =? 0 then st
    else {| documents := []; initialized := false; stopWords := stopWords st |}.
Proof.
  unfold ArchiveSearchService.contextFor.
  destruct (List.length (archiveDocuments ++ ddgResults) =? 0); [reflexivity|].
  cbn [initialize negb].
  pose proof (addDocuments_result
                {| documents := []; initialized := true; stopWords := stopWords st |}
                (archiveDocuments ++ ddgResults)) as (Hs & _ & _).
  pose proof (run_stopWords (OpAddDocuments (archiveDocuments ++ ddgResults))
                {| documents := []; initialized := true; stopWords := stopWords st |}) as Hw.
  cbn [run stopWords] in Hw.
  destruct (addDocuments _ (archiveDocuments ++ ddgResults)) as [st2 added].
  cbn [snd fst] in Hs, Hw. subst added. cbn [negb].
  pose proof (run_stopWords (OpQuery query 5) st2) as Hw3. cbn [run] in Hw3.
  destruct (queryRelevantContent st2 query 5) as [st3 relevantChunks].
  cbn [fst] in Hw3.
  destruct (List.length (ArchiveSearchService.finalChunksOf ddgResults relevantChunks) =? 0);
    cbn [fst]; unfold close; rewrite Hw3, Hw; reflexivity.
Qed.

Lemma context_result (ops1 ops2 : list operation)
      (archiveDocuments ddgResults : list Document) (query : string) :
  snd (ArchiveSearchService.contextFor (after ops1) archiveDocuments ddgResults query)
  = snd (ArchiveSearchService.contextFor (after ops2) archiveDocuments ddgResults query).
Proof.
  unfold ArchiveSearchService.contextFor.
  destruct (List.length (archiveDocuments ++ ddgResults) =? 0); [reflexivity|].
  unfold initialize. rewrite !after_stopWords. reflexivity.
Qed.

(** X22: A call of the method is a session of its own on the shared store: given
    one document or more it leaves the store closed and empty, given none it
    leaves the store untouched, and the context it returns does not depend
    on what earlier calls left in the store. *)
Theorem context_session_isolated
  (ops1 ops2 : list operation)
  (archiveDocuments ddgResults : list Document) (query : string) :
  fst (ArchiveSearchService.contextFor (after ops1) archiveDocuments ddgResults query)
  = (if List.length (archiveDocuments ++ ddgResults) =? 0 then after ops1
     else {| documents := []; initialized := false;
             stopWords := stopWords (after ops1) |}) /\
  snd (ArchiveSearchService.contextFor (after ops1) archiveDocuments ddgResults query)
  = snd (ArchiveSearchService.contextFor (after ops2) archiveDocuments ddgResults query).
Proof.
  split; [apply context_store|apply context_result].
Qed.

(** X21: Whenever search results exist, one of the chunks that reach the context
    comes from a search result: a ranked chunk with the URL of a search
    result, or else a chunk put in for the first search results. *)
Theorem search_result_among_final_chunks
  (ddgResults : list Document) (relevantChunks : list Scored) :
  ddgResults <> [] ->
  exists chunk,
    In chunk (ArchiveSearchService.finalChunksOf ddgResults relevantChunks) /\
    ArchiveSearchService.fromSearch ddgResults (url (s_metadata chunk)) = true.
Proof.
  intros Hd. unfold ArchiveSearchService.finalChunksOf.
  destruct (filter _ relevantChunks) as [|x l] eqn:F.
  - destruct ddgResults as [|d ddg]; [contradiction|].
    cbn [List.length Nat.eqb Nat.ltb Nat.leb andb].
    exists (ArchiveSearchService.searchChunk d). split.
    + apply in_or_app. right. unfold JS.slice. cbn [skipn firstn map]. left. reflexivity.
    + unfold ArchiveSearchService.fromSearch, ArchiveSearchService.searchChunk.
      cbn [existsb s_metadata url]. rewrite String.eqb_refl. reflexivity.
  - cbn [List.length Nat.eqb andb].
    assert (Hx : In x (filter
                         (fun chunk =>
                            ArchiveSearchService.fromSearch ddgResults
                              (url (s_metadata chunk))) relevantChunks))
      by (rewrite F; left; reflexivity).
    apply filter_In in Hx. exists x. exact Hx.
Qed.

Lemma search_result_among_final_chunks_witness :
  exists chunk,
    In chunk (ArchiveSearchService.finalChunksOf
                [Examples.doc "http://s" "Sun" "Sunny."] []) /\
    ArchiveSearchService.fromSearch [Examples.doc "http://s" "Sun" "Sunny."]
      (url (s_metadata chunk)) = true.
Proof.
  apply (search_result_among_final_chunks [Examples.doc "http://s" "Sun" "Sunny."] []).
  discriminate.
Defined.

Lemma pushTo_length (key v : string) (acc : list (string * list string)) :
  List.length (ArchiveSearchService.pushTo key v acc) <= S (List.length acc).
Proof.
  induction acc as [|[k vs] acc IH]; simpl; [lia|].
  destruct (String.eqb k key); simpl; lia.
Qed.

Lemma groupByDoc_length (ddgResults : list Document) (finalChunks : list Scored) :
  List.length (ArchiveSearchService.groupByDoc ddgResults finalChunks)
  <= List.length finalChunks.
Proof.
  unfold ArchiveSearchService.groupByDoc.
  assert (G : forall acc,
             List.length
               (fold_left
                  (fun acc chunk =>
                     ArchiveSearchService.pushTo
                       (ArchiveSearchService.groupKey ddgResults chunk)
                       (ArchiveSearchService.extractCompleteSentences (s_content chunk)) acc)
                  finalChunks acc)
             <= List.length acc + List.length finalChunks).
  { induction finalChunks as [|c cs IH]; intros acc; simpl; [lia|].
    specialize (IH (ArchiveSearchService.pushTo
                      (ArchiveSearchService.groupKey ddgResults c)
                      (ArchiveSearchService.extractCompleteSentences (s_content c)) acc)).
    pose proof (pushTo_length (ArchiveSearchService.groupKey ddgResults c)
                  (ArchiveSearchService.extractCompleteSentences (s_content c)) acc).
    lia. }
  apply (G []).
Qed.

(** X23: At most five chunks reach the context (up to three ranked chunks and
    two that stand for search results, or up to five ranked chunks), so the
    context names at most five sources. *)
Theorem at_most_five_sources
  (ddgResults : list Document) (queryText : string) (st : Store) :
  List.length
    (ArchiveSearchService.groupByDoc ddgResults
       (ArchiveSearchService.finalChunksOf ddgResults
          (snd (queryRelevantContent st queryText 5)))) <= 5.
Proof.
  pose proof (query_length_le st queryText 5) as H.
  set (rel := snd (queryRelevantContent st queryText 5)) in *.
  etransitivity; [apply groupByDoc_length|].
  unfold ArchiveSearchService.finalChunksOf.
  destruct ((List.length (filter _ rel) =? 0) && (0 <? List.length ddgResults));
    [|exact H].
  rewrite length_app, length_map. unfold JS.slice. cbn [skipn].
  pose proof (firstn_le_length 3 rel). pose proof (firstn_le_length 2 ddgResults). lia.
Qed.

(** ** The end of the context *)

Lemma trimChars_noop (l : list ascii) (first last : ascii) :
  hd_error l = Some first -> JS.isSpaceChar first = false ->
  hd_error (rev l) = Some last -> JS.isSpaceChar last = false ->
  JS.trimChars l = l.
Proof.
  intros H1 S1 H2 S2. unfold JS.trimChars.
  destruct l as [|c l]; [discriminate H1|]. injection H1 as ->.
  cbn [JS.dropSpaces]. rewrite S1.
  destruct (rev (first :: l)) as [|d r] eqn:R; [discriminate H2|]. injection H2 as ->.
  cbn [JS.dropSpaces]. rewrite S2, <- R. apply rev_involutive.
Qed.

Lemma rendered_chars (d label body : string) :
  JS.chars ("Source " ++ d ++ ": " ++ label ++ " " ++ body ++ " ---")
  = JS.chars "Source " ++ JS.chars d ++ JS.chars ": "
    ++ (JS.chars label ++ JS.chars " " ++ JS.chars body ++ [" "; "-"; "-"]%char)
    ++ ["-"%char].
Proof.
  rewrite !chars_app, <- !app_assoc. reflexivity.
Qed.

Lemma renderGroup_chars (n : nat) (g : string * list string) :
  exists middle,
    JS.chars (ArchiveSearchService.renderGroup n g)
    = JS.chars "Source " ++ JS.chars (decimal n) ++ JS.chars ": " ++ middle ++ ["-"%char].
Proof.
  destruct g as [key contents]. unfold ArchiveSearchService.renderGroup.
  eexists. apply rendered_chars.
Qed.

Lemma renderGroups_chars (n : nat) (g : string * list string)
      (groups : list (string * list string)) :
  exists middle,
    JS.chars (ArchiveSearchService.renderGroups n (g :: groups))
    = JS.chars "Source " ++ JS.chars (decimal n) ++ JS.chars ": " ++ middle ++ ["-"%char].
Proof.
  revert n g. induction groups as [|g' groups IH]; intros n g.
  - cbn [ArchiveSearchService.renderGroups]. rewrite chars_app.
    destruct (renderGroup_chars n g) as [m E]. rewrite E. exists m.
    cbn [JS.chars list_ascii_of_string]. rewrite app_nil_r. reflexivity.
  - cbn [ArchiveSearchService.renderGroups]. rewrite chars_app.
    destruct (renderGroup_chars n g) as [m E]. rewrite E.
    destruct (IH (S n) g') as [m' E']. cbn [ArchiveSearchService.renderGroups] in E'.
    rewrite E'.
    exists (m ++ ["-"%char] ++ JS.chars "Source " ++ JS.chars (decimal (S n))
              ++ JS.chars ": " ++ m').
    rewrite <- !app_assoc. reflexivity.
Qed.

(** The text of one or more groups starts with [Source 1: ] and ends with a
    hyphen. *)
Lemma rendered_frame (g : string * list string) (groups : list (string * list string)) :
  exists middle,
    JS.chars (ArchiveSearchService.renderGroups 1 (g :: groups))
    = JS.chars "Source 1: " ++ middle ++ ["-"%char].
Proof.
  destruct (renderGroups_chars 1 g groups) as [m E]. exists m. rewrite E. reflexivity.
Qed.

Lemma substring0_chars (s : string) (n : nat) :
  JS.chars (JS.substring0 s n) = firstn n (JS.chars s).
Proof.
  unfold JS.substring0, JS.chars. revert s. induction n as [|n IH]; intros [|c s];
    simpl; try reflexivity.
  f_equal. apply IH.
Qed.

Lemma get_chars (s : string) (k : nat) : String.get k s = nth_error (JS.chars s) k.
Proof.
  unfold JS.chars. revert k. induction s as [|c s IH]; intros [|k]; simpl; auto.
Qed.

(** In a text that starts with [Source 1: ], no terminator lies at an index
    below 10. *)
Lemma no_terminator_in_header (rest : list ascii) (k : nat) (c : ascii) :
  nth_error (JS.chars "Source 1: " ++ rest) k = Some c ->
  JS.isTerminator c = true -> 10 <= k.
Proof.
  intros H T.
  destruct (Nat.lt_ge_cases k 10) as [L|L]; [|exact L]. exfalso.
  do 10 (destruct k as [|k];
         [cbn in H; injection H as <-; discriminate T|]).
  lia.
Qed.

Lemma finish_frame (g : string * list string) (groups : list (string * list string)) :
  ArchiveSearchService.finish (ArchiveSearchService.renderGroups 1 (g :: groups))
  = if 4000 <? String.length (ArchiveSearchService.renderGroups 1 (g :: groups))
    then (ArchiveSearchService.trimToSentenceBoundary
            (ArchiveSearchService.renderGroups 1 (g :: groups)) 4000
          ++ "...(truncated)")%string
    else ArchiveSearchService.renderGroups 1 (g :: groups).
Proof.
  destruct (rendered_frame g groups) as [middle E].
  set (T := ArchiveSearchService.renderGroups 1 (g :: groups)) in *.
  unfold ArchiveSearchService.finish, ArchiveSearchService.MAX_CONTEXT_LENGTH.
  destruct (4000 <? String.length T) eqn:L.
  - unfold JS.trim. rewrite chars_app.
    rewrite (trimChars_noop _ "S"%char ")"%char); [| |reflexivity| |reflexivity].
    + rewrite <- chars_app. apply text_chars.
    + apply Nat.ltb_lt in L.
      destruct (trim_cases T 4000) as [[L' _]|[[_ [k [c (_ & K & _ & _ & _ & ->)]]]|[_ [_ ->]]]].
      * lia.
      * rewrite substring0_chars, E. destruct k; [lia|]. reflexivity.
      * rewrite substring0_chars, E. reflexivity.
    + rewrite rev_app_distr. reflexivity.
  - unfold JS.trim.
    rewrite (trimChars_noop _ "S"%char "-"%char); [apply text_chars| |reflexivity| |reflexivity].
    + rewrite E. reflexivity.
    + rewrite E, !rev_app_distr. reflexivity.
Qed.

(** X24: The text that the method returns for one or more groups: the rendered
    groups when they fit the budget of 4000 characters, and otherwise their
    cut followed by the marker; the final [trim()] changes neither. *)
Theorem finish_rendered (g : string * list string) (groups : list (string * list string)) :
  ArchiveSearchService.finish (ArchiveSearchService.renderGroups 1 (g :: groups))
  = if 4000 <? String.length (ArchiveSearchService.renderGroups 1 (g :: groups))
    then (ArchiveSearchService.trimToSentenceBoundary
            (ArchiveSearchService.renderGroups 1 (g :: groups)) 4000
          ++ "...(truncated)")%string
    else ArchiveSearchService.renderGroups 1 (g :: groups).
Proof. exact (finish_frame g groups). Qed.

(** X25: A context over the budget that holds a terminator among its first 4001
    characters ends with the last such terminator followed by the marker:
    the method never cuts such a context inside a sentence.  (The text
    starts with [Source], so the terminator is not at index 0.) *)
Theorem context_cut_at_sentence_end
  (g : string * list string) (groups : list (string * list string))
  (i : nat) (c : ascii) :
  4000 < String.length (ArchiveSearchService.renderGroups 1 (g :: groups)) ->
  i <= 4000 ->
  String.get i (ArchiveSearchService.renderGroups 1 (g :: groups)) = Some c ->
  JS.isTerminator c = true ->
  exists k t,
    i <= k <= 4000 /\
    String.get k (ArchiveSearchService.renderGroups 1 (g :: groups)) = Some t /\
    JS.isTerminator t = true /\
    ArchiveSearchService.finish (ArchiveSearchService.renderGroups 1 (g :: groups))
    = (JS.substring0 (ArchiveSearchService.renderGroups 1 (g :: groups)) (S k)
       ++ "...(truncated)")%string.
Proof.
  intros L Hi Hg T.
  rewrite finish_frame.
  destruct (rendered_frame g groups) as [middle E].
  set (X := ArchiveSearchService.renderGroups 1 (g :: groups)) in *.
  assert (Hi1 : 1 <= i).
  { rewrite get_chars, E in Hg.
    pose proof (no_terminator_in_header _ _ _ Hg T). lia. }
  destruct (trim_last_terminator X 4000 i c L (conj Hi1 Hi) Hg T)
    as [k [t (K & G & Tk & _ & Ecut & _ & _)]].
  exists k, t. split; [exact K|]. split; [exact G|]. split; [exact Tk|].
  apply Nat.ltb_lt in L. rewrite L, Ecut. reflexivity.
Qed.

Lemma context_cut_at_sentence_end_witness :
  exists k t,
    3018 <= k <= 4000 /\
    String.get k (ArchiveSearchService.renderGroups 1 [Examples.longGroup]) = Some t /\
    JS.isTerminator t = true /\
    ArchiveSearchService.finish (ArchiveSearchService.renderGroups 1 [Examples.longGroup])
    = (JS.substring0 (ArchiveSearchService.renderGroups 1 [Examples.longGroup]) (S k)
       ++ "...(truncated)")%string.
Proof.
  apply (context_cut_at_sentence_end Examples.longGroup [] 3018 "."%char).
  - vm_compute. lia.
  - lia.
  - vm_compute. reflexivity.
  - reflexivity.
Defined.

Lemma pushTo_nonempty (key v : string) (acc : list (string * list string)) :
  ArchiveSearchService.pushTo key v acc <> [].
Proof.
  destruct acc as [|[k vs] acc]; simpl; [discriminate|].
  destruct (String.eqb k key); discriminate.
Qed.

Lemma groupByDoc_nonempty (ddgResults : list Document) (finalChunks : list Scored) :
  finalChunks <> [] -> ArchiveSearchService.groupByDoc ddgResults finalChunks <> [].
Proof.
  unfold ArchiveSearchService.groupByDoc.
  assert (G : forall l acc,
             acc <> [] ->
             fold_left
               (fun acc chunk =>
                  ArchiveSearchService.pushTo
                    (ArchiveSearchService.groupKey ddgResults chunk)
                    (ArchiveSearchService.extractCompleteSentences (s_content chunk)) acc)
               l acc <> []).
  { induction l as [|c l IH]; intros acc H; simpl; [exact H|].
    apply IH. apply pushTo_nonempty. }
  destruct finalChunks as [|c cs]; [contradiction|]. intros _.
  cbn [fold_left]. apply G. apply pushTo_nonempty.
Qed.

Lemma prefix_chars (p s : string) (rest : list ascii) :
  JS.chars s = JS.chars p ++ rest -> String.prefix p s = true.
Proof.
  unfold JS.chars. revert s. induction p as [|c p IH]; intros s H.
  - destruct s; reflexivity.
  - destruct s as [|d s]; [discriminate H|]. simpl in H. injection H as -> H.
    simpl. destruct (ascii_dec c c) as [_|N]; [|contradiction]. apply (IH s H).
Qed.

(** X26: A context that the method returns has at most 4015 characters (the
    budget, one terminator more, and the marker) and starts with
    [Source 1: ]. *)
Theorem context_within_budget
  (st : Store) (archiveDocuments ddgResults : list Document) (query context : string) :
  snd (ArchiveSearchService.contextFor st archiveDocuments ddgResults query)
  = Some context ->
  String.length context <= 4015 /\ JS.startsWith context "Source 1: " = true.
Proof.
  unfold ArchiveSearchService.contextFor.
  destruct (List.length (archiveDocuments ++ ddgResults) =? 0); [discriminate|].
  cbn [initialize negb].
  destruct (addDocuments _ (archiveDocuments ++ ddgResults)) as [st2 added].
  destruct (negb added); [discriminate|].
  destruct (queryRelevantContent st2 query 5) as [st3 relevantChunks].
  destruct (List.length (ArchiveSearchService.finalChunksOf ddgResults relevantChunks) =? 0)
    eqn:L; [discriminate|].
  cbn [snd]. intros H. injection H as <-.
  assert (Hf : ArchiveSearchService.finalChunksOf ddgResults relevantChunks <> []).
  { intros E. rewrite E in L. discriminate L. }
  pose proof (groupByDoc_nonempty ddgResults _ Hf) as Hg.
  destruct (ArchiveSearchService.groupByDoc ddgResults
              (ArchiveSearchService.finalChunksOf ddgResults relevantChunks))
    as [|g groups]; [contradiction|].
  rewrite finish_frame.
  destruct (rendered_frame g groups) as [middle E].
  set (T := ArchiveSearchService.renderGroups 1 (g :: groups)) in *.
  unfold JS.startsWith.
  destruct (4000 <? String.length T) eqn:B.
  - apply Nat.ltb_lt in B. split.
    + rewrite append_length. pose proof (proj2 (trim_prefix_bound T 4000)) as P.
      change (String.length "...(truncated)") with 14. lia.
    + destruct (trim_cases T 4000)
        as [[L' _]|[[_ [k [c (_ & K & G & Tk & _ & ->)]]]|[_ [_ ->]]]].
      * lia.
      * rewrite get_chars, E in G.
        pose proof (no_terminator_in_header _ _ _ G Tk) as Hk.
        apply (prefix_chars _ _
                 (firstn (S k - 10) (middle ++ ["-"%char]) ++ JS.chars "...(truncated)")).
        rewrite chars_app, substring0_chars, E, firstn_app.
        rewrite firstn_all2 by (cbn; lia).
        change (List.length (JS.chars "Source 1: ")) with 10.
        rewrite <- app_assoc. reflexivity.
      * apply (prefix_chars _ _
                 (firstn (4000 - 10) (middle ++ ["-"%char]) ++ JS.chars "...(truncated)")).
        rewrite chars_app, substring0_chars, E, firstn_app.
        rewrite firstn_all2 by (cbn; lia).
        change (List.length (JS.chars "Source 1: ")) with 10.
        rewrite <- app_assoc. reflexivity.
  - apply Nat.ltb_ge in B. split; [lia|].
    apply (prefix_chars _ _ (middle ++ ["-"%char])). exact E.
Qed.

Lemma context_within_budget_witness :
  String.length
    "Source 1: Search Result Sun Sunny. ---" <= 4015 /\
  JS.startsWith "Source 1: Search Result Sun Sunny. ---" "Source 1: "
  = true.
Proof.
  apply (context_within_budget fresh []
           (ArchiveSearchService.searchDocuments [("Sun", "http://s", "Sunny.")] 8)
           "rain").
  vm_compute. reflexivity.
Defined.

(** ** The label of a source *)

Lemma splitOn_piece (sep : ascii) (u rest cur : list ascii) :
  forallb (fun c => negb (Ascii.eqb c sep)) u = true ->
  ArchiveSearchService.splitOn sep (u ++ sep :: rest) cur
  = (rev cur ++ u) :: ArchiveSearchService.splitOn sep rest [].
Proof.
  revert cur. induction u as [|c u IH]; intros cur H.
  - simpl. rewrite Ascii.eqb_refl, app_nil_r. reflexivity.
  - simpl in H. apply andb_true_iff in H. destruct H as [Hc H].
    apply negb_true_iff in Hc. simpl. rewrite Hc, (IH (c :: cur) H).
    simpl. rewrite <- app_assoc. reflexivity.
Qed.

Lemma splitOn_nonempty (sep : ascii) (l cur : list ascii) :
  1 <= List.length (ArchiveSearchService.splitOn sep l cur).
Proof.
  revert cur. induction l as [|c l IH]; intros cur; simpl; [lia|].
  destruct (Ascii.eqb c sep); simpl; [lia|apply IH].
Qed.

(** X27: A chunk that comes from a search result (its title starts with
    [DuckDuckGo:], or its URL is the URL of a search result) is rendered
    under the label [Search Result], provided its URL holds no [|]. *)
Theorem search_chunk_label
  (ddgResults : list Document) (chunk : Scored) (n : nat) (contents : list string) :
  forallb (fun c => negb (Ascii.eqb c "|")) (JS.chars (url (s_metadata chunk))) = true ->
  JS.startsWith (title (s_metadata chunk)) "DuckDuckGo:"
  || ArchiveSearchService.fromSearch ddgResults (url (s_metadata chunk)) = true ->
  ArchiveSearchService.renderGroup n
    (ArchiveSearchService.groupKey ddgResults chunk, contents)
  = ("Source " ++ decimal n ++ ": Search Result "
     ++ JS.text (ArchiveSearchService.newlinesToSpace
                   (JS.chars (JS.join " " contents)) false)
     ++ " ---")%string.
Proof.
  intros Hu Hd. unfold ArchiveSearchService.renderGroup, ArchiveSearchService.groupKey.
  rewrite Hd. rewrite !chars_app.
  change (JS.chars "|") with ["|"%char]. cbn [app].
  rewrite (splitOn_piece "|" _ _ [] Hu). cbn [rev app].
  change (JS.chars "DuckDuckGo|") with (JS.chars "DuckDuckGo" ++ ["|"%char]).
  rewrite <- app_assoc. cbn [app].
  rewrite (splitOn_piece "|" (JS.chars "DuckDuckGo") _ [] eq_refl). cbn [rev app map].
  pose proof (splitOn_nonempty "|" (JS.chars (title (s_metadata chunk))) []) as Hn.
  destruct (ArchiveSearchService.splitOn "|" (JS.chars (title (s_metadata chunk))) [])
    as [|p ps]; [cbn in Hn; lia|].
  cbn [map List.length nth Nat.ltb Nat.leb andb].
  rewrite text_chars. reflexivity.
Qed.

Lemma search_chunk_label_witness :
  ArchiveSearchService.renderGroup 2
    (ArchiveSearchService.groupKey []
       (ArchiveSearchService.searchChunk (Examples.doc "http://s" "Sun" "Sunny.")),
     ["Sunny."])
  = ("Source " ++ decimal 2 ++ ": Search Result "
     ++ JS.text (ArchiveSearchService.newlinesToSpace
                   (JS.chars (JS.join " " ["Sunny."])) false)
     ++ " ---")%string.
Proof.
  apply (search_chunk_label []
           (ArchiveSearchService.searchChunk (Examples.doc "http://s" "Sun" "Sunny.")) 2
           ["Sunny."]).
  - reflexivity.
  - reflexivity.
Defined.

(** ** The word overlap is symmetric *)

Lemma has_In (set : list string) (w : string) : has set w = true <-> In w set.
Proof.
  unfold has. rewrite existsb_exists. split.
  - intros [x [Hx E]]. apply String.eqb_eq in E. subst x. exact Hx.
  - intros H. exists w. split; [exact H|apply String.eqb_refl].
Qed.

Lemma newSet_NoDup (arr : list string) : NoDup (newSet arr).
Proof.
  unfold newSet.
  assert (G : forall set, NoDup set ->
                          NoDup (fold_left
                                   (fun set w => if has set w then set else set ++ [w])
                                   arr set)).
  { induction arr as [|w arr IH]; intros set H; simpl; [exact H|].
    apply IH. destruct (has set w) eqn:E; [exact H|].
    apply NoDup_app; [exact H|repeat constructor; intros []|].
    intros x Hx [<-|[]]. apply has_In in Hx. rewrite Hx in E. discriminate E. }
  apply G. constructor.
Qed.

Lemma common_count (l1 l2 : list string) :
  NoDup l1 -> NoDup l2 ->
  List.length (filter (has l2) l1) = List.length (filter (has l1) l2).
Proof.
  intros N1 N2. apply Permutation_length. apply NoDup_Permutation.
  - apply NoDup_filter. exact N1.
  - apply NoDup_filter. exact N2.
  - intros x. rewrite !filter_In, !has_In. tauto.
Qed.

(** X5: [contentSimilarity(a, b)] and [contentSimilarity(b, a)] are the same
    value: which of two chunks of a URL ranks first does not change whether
    they count as duplicates. *)
Theorem contentSimilarity_symmetric (text1 text2 : string) :
  contentSimilarity text1 text2 = contentSimilarity text2 text1.
Proof.
  unfold contentSimilarity.
  set (w1 := newSet (filter _ (JS.splitSpaces (cleanText text1)))).
  set (w2 := newSet (filter _ (JS.splitSpaces (cleanText text2)))).
  rewrite (common_count w2 w1 (newSet_NoDup _) (newSet_NoDup _)).
  rewrite (Nat.add_comm (List.length w2) (List.length w1)).
  reflexivity.
Qed.

(** ** Complete sentences of a chunk *)

(** X19: A text in which no terminator comes after a character that is not one
    (in particular a text with no terminator) is returned unchanged by
    [extractCompleteSentences]. *)
Theorem extractCompleteSentences_without_sentence (text : string) (l1 l2 : list ascii) :
  JS.chars text = l1 ++ l2 ->
  forallb JS.isTerminator l1 = true -> forallb nonTerminator l2 = true ->
  ArchiveSearchService.extractCompleteSentences text = text.
Proof.
  intros E H1 H2. unfold ArchiveSearchService.extractCompleteSentences.
  assert (N : JS.matchSentences text = []).
  { unfold JS.matchSentences. apply text_inj_nil, matchFrom_nil_iff.
    exists l1, l2. auto. }
  rewrite N. reflexivity.
Qed.

Lemma extractCompleteSentences_without_sentence_witness :
  ArchiveSearchService.extractCompleteSentences "...and then nothing"
  = "...and then nothing".
Proof.
  apply (extractCompleteSentences_without_sentence "...and then nothing"
           (JS.chars "...") (JS.chars "and then nothing")); reflexivity.
Defined.

(** ** The content of a scraped article *)

Lemma squeeze_shape (l : list ascii) :
  singleSpaced (ArchiveSearchService.squeezeSpaces l None false) = true /\
  forall p many,
    JS.isSpaceChar p = true ->
    exists w rest,
      ArchiveSearchService.squeezeSpaces l (Some p) many = w :: rest /\
      JS.isSpaceChar w = true /\ startsTight rest = true /\ singleSpaced rest = true.
Proof.
  induction l as [|c l [IHn IHs]].
  - split; [reflexivity|]. intros p many Hp. cbn.
    destruct many; [exists " "%char, []|exists p, []]; auto.
  - split.
    + cbn [ArchiveSearchService.squeezeSpaces]. destruct (JS.isSpaceChar c) eqn:C.
      * destruct (IHs c false C) as [w [rest (-> & Hw & Ht & Hs)]].
        cbn [singleSpaced]. destruct rest as [|b rest]; [reflexivity|].
        cbn [startsTight] in Ht. rewrite Hw. cbn [andb].
        rewrite Ht. exact Hs.
      * cbn [ArchiveSearchService.flushSpace app].
        destruct (ArchiveSearchService.squeezeSpaces l None false) as [|b r] eqn:E;
          [reflexivity|].
        cbn [singleSpaced]. rewrite C. cbn [andb negb]. exact IHn.
    + intros p many Hp. cbn [ArchiveSearchService.squeezeSpaces].
      destruct (JS.isSpaceChar c) eqn:C.
      * apply IHs. exact Hp.
      * assert (Hc : singleSpaced (c :: ArchiveSearchService.squeezeSpaces l None false)
                     = true).
        { destruct (ArchiveSearchService.squeezeSpaces l None false) as [|b r] eqn:E;
            [reflexivity|].
          cbn [singleSpaced]. rewrite C. cbn [andb negb]. exact IHn. }
        cbn [ArchiveSearchService.flushSpace]. destruct many; cbn [app].
        -- exists " "%char, (c :: ArchiveSearchService.squeezeSpaces l None false).
           cbn [startsTight]. rewrite C. auto.
        -- exists p, (c :: ArchiveSearchService.squeezeSpaces l None false).
           cbn [startsTight]. rewrite C. auto.
Qed.

Lemma singleSpaced_tail (a : ascii) (l : list ascii) :
  singleSpaced (a :: l) = true -> singleSpaced l = true.
Proof.
  destruct l as [|b l]; [reflexivity|]. cbn [singleSpaced].
  intros H. apply andb_true_iff in H. tauto.
Qed.

Lemma singleSpaced_dropSpaces (l : list ascii) :
  singleSpaced l = true -> singleSpaced (JS.dropSpaces l) = true.
Proof.
  induction l as [|c l IH]; intros H; [reflexivity|].
  cbn [JS.dropSpaces]. destruct (JS.isSpaceChar c); [|exact H].
  apply IH. exact (singleSpaced_tail _ _ H).
Qed.

Lemma singleSpaced_snoc (l : list ascii) (a : ascii) :
  singleSpaced l = true ->
  (forall b, hd_error (rev l) = Some b -> JS.isSpaceChar b && JS.isSpaceChar a = false) ->
  singleSpaced (l ++ [a]) = true.
Proof.
  induction l as [|c l IH]; intros H Hl; [reflexivity|].
  destruct l as [|d l].
  - cbn [app singleSpaced]. rewrite (Hl c eq_refl). reflexivity.
  - cbn [app singleSpaced] in *. apply andb_true_iff in H. destruct H as [H1 H2].
    rewrite H1. cbn [andb]. apply IH; [exact H2|].
    intros b Hb. apply Hl. cbn [rev] in *.
    destruct (rev l ++ [d]) as [|x r] eqn:E.
    + destruct (rev l); discriminate E.
    + cbn [app hd_error] in *. exact Hb.
Qed.

Lemma singleSpaced_rev (l : list ascii) :
  singleSpaced l = true -> singleSpaced (rev l) = true.
Proof.
  induction l as [|a l IH]; intros H; [reflexivity|].
  cbn [rev]. apply singleSpaced_snoc.
  - apply IH. exact (singleSpaced_tail _ _ H).
  - intros b Hb. rewrite rev_involutive in Hb.
    destruct l as [|c l]; [discriminate Hb|]. injection Hb as ->.
    cbn [singleSpaced] in H. apply andb_true_iff in H. destruct H as [H _].
    apply negb_true_iff in H. rewrite andb_comm. exact H.
Qed.

Lemma startsTight_dropSpaces (l : list ascii) : startsTight (JS.dropSpaces l) = true.
Proof.
  induction l as [|c l IH]; [reflexivity|].
  cbn [JS.dropSpaces]. destruct (JS.isSpaceChar c) eqn:C; [exact IH|].
  cbn [startsTight]. rewrite C. reflexivity.
Qed.

Lemma dropSpaces_tight (l : list ascii) : startsTight l = true -> JS.dropSpaces l = l.
Proof.
  destruct l as [|c l]; [reflexivity|]. cbn [startsTight JS.dropSpaces].
  intros H. apply negb_true_iff in H. rewrite H. reflexivity.
Qed.

Lemma dropSpaces_suffix (l : list ascii) : exists pre, l = pre ++ JS.dropSpaces l.
Proof.
  induction l as [|c l [pre IH]]; [exists []; reflexivity|].
  cbn [JS.dropSpaces]. destruct (JS.isSpaceChar c).
  - exists (c :: pre). cbn [app]. f_equal. exact IH.
  - exists []. reflexivity.
Qed.

(** A trimmed list starts and ends with no white space. *)
Lemma trimChars_tight (l : list ascii) :
  startsTight (JS.trimChars l) = true /\ startsTight (rev (JS.trimChars l)) = true.
Proof.
  unfold JS.trimChars. rewrite rev_involutive. split; [|apply startsTight_dropSpaces].
  destruct (dropSpaces_suffix (rev (JS.dropSpaces l))) as [pre E].
  pose proof (startsTight_dropSpaces l) as T.
  apply (f_equal (@rev ascii)) in E. rewrite rev_involutive, rev_app_distr in E.
  destruct (rev (JS.dropSpaces (rev (JS.dropSpaces l)))) as [|c r]; [reflexivity|].
  rewrite E in T. exact T.
Qed.

Lemma trimChars_singleSpaced (l : list ascii) :
  singleSpaced l = true -> singleSpaced (JS.trimChars l) = true.
Proof.
  intros H. unfold JS.trimChars.
  apply singleSpaced_rev, singleSpaced_dropSpaces, singleSpaced_rev,
    singleSpaced_dropSpaces. exact H.
Qed.

Lemma newline_is_space (c : ascii) : JS.isNewline c = true -> JS.isSpaceChar c = true.
Proof.
  unfold JS.isNewline, JS.isSpaceChar. intros H. apply Nat.eqb_eq in H. rewrite H.
  reflexivity.
Qed.

(** A text with no two characters of white space side by side has no blank
    line, so [split(/\n{2,}/)] returns it whole. *)
Lemma splitRuns_singleSpaced (l cur run : list ascii) :
  singleSpaced (run ++ l) = true -> List.length run <= 1 ->
  Forall (fun c => JS.isNewline c = true) run ->
  JS.splitRuns JS.isNewline 2 l cur run = [rev (run ++ cur) ++ l].
Proof.
  revert cur run. induction l as [|c l IH]; intros cur run H L N.
  - cbn [JS.splitRuns]. destruct run as [|r [|r' run]]; cbn in L |- *;
      try rewrite app_nil_r; try reflexivity; lia.
  - cbn [JS.splitRuns]. destruct (JS.isNewline c) eqn:C.
    + destruct run as [|r [|r' run]]; [| |cbn in L; lia].
      * rewrite (IH cur [c]); [|exact H|cbn; lia|repeat constructor; exact C].
        cbn [app rev]. rewrite <- app_assoc. reflexivity.
      * exfalso. cbn [app singleSpaced] in H. apply andb_true_iff in H.
        destruct H as [H _]. apply negb_true_iff in H.
        inversion N as [|x xs Hr _]; subst.
        rewrite (newline_is_space r Hr), (newline_is_space c C) in H. discriminate H.
    + assert (K : (2 <=? List.length run) = false)
        by (apply Nat.leb_gt; lia).
      rewrite K.
      rewrite (IH (c :: run ++ cur) []); [| |cbn; lia|constructor].
      * cbn [app rev]. rewrite <- app_assoc. reflexivity.
      * cbn [app]. destruct run as [|r run]; [exact (singleSpaced_tail _ _ H)|].
        cbn [app] in H. apply singleSpaced_tail in H.
        destruct run; [exact (singleSpaced_tail _ _ H)|cbn in L; lia].
Qed.

Lemma cleanContent_chars (textContent : string) :
  exists l, singleSpaced l = true /\
            ArchiveSearchService.cleanContent textContent = JS.text (JS.trimChars l).
Proof.
  unfold ArchiveSearchService.cleanContent. cbv zeta.
  eexists. split; [|reflexivity]. apply (proj1 (squeeze_shape _)).
Qed.

Lemma scraped_content_shape (textContent : string) :
  singleSpaced (JS.chars (ArchiveSearchService.cleanContent textContent)) = true /\
  startsTight (JS.chars (ArchiveSearchService.cleanContent textContent)) = true /\
  startsTight (rev (JS.chars (ArchiveSearchService.cleanContent textContent))) = true.
Proof.
  destruct (cleanContent_chars textContent) as [l [H ->]]. rewrite chars_text.
  split; [apply trimChars_singleSpaced; exact H|apply trimChars_tight].
Qed.

(** X28: The content of a scraped article holds no two characters of white space
    side by side, and neither starts nor ends with white space. *)
Theorem scraped_content_single_spaced (textContent : string) :
  singleSpaced (JS.chars (ArchiveSearchService.cleanContent textContent)) = true /\
  startsTight (JS.chars (ArchiveSearchService.cleanContent textContent)) = true /\
  startsTight (rev (JS.chars (ArchiveSearchService.cleanContent textContent))) = true.
Proof. exact (scraped_content_shape textContent). Qed.

Lemma trim_tight (l : list ascii) :
  startsTight l = true -> startsTight (rev l) = true -> JS.trimChars l = l.
Proof.
  intros H1 H2. unfold JS.trimChars.
  rewrite (dropSpaces_tight l H1), (dropSpaces_tight (rev l) H2). apply rev_involutive.
Qed.

(** X29: The paragraph tier of the chunking cannot split the content of a scraped
    article: [scrapeContent] has already replaced every blank line by one
    space, so the tier yields the whole content when it is longer than 50
    characters and nothing otherwise. *)
Theorem paragraphs_of_scraped_content (textContent : string) :
  paragraphChunks (ArchiveSearchService.cleanContent textContent)
  = if 50 <? String.length (ArchiveSearchService.cleanContent textContent)
    then [ArchiveSearchService.cleanContent textContent] else [].
Proof.
  destruct (scraped_content_shape textContent) as (H & T1 & T2).
  set (content := ArchiveSearchService.cleanContent textContent) in *.
  unfold paragraphChunks, JS.splitBlankLines.
  rewrite (splitRuns_singleSpaced (JS.chars content) [] []);
    [|exact H|cbn; lia|constructor].
  cbn [app rev map]. unfold JS.trim. rewrite chars_text.
  rewrite (trim_tight _ T1 T2), !text_chars. reflexivity.
Qed.

(** ** The archive URLs of a page *)

Lemma stripPrefix_some (p l r : list ascii) :
  ArchiveSearchService.stripPrefix p l = Some r -> l = p ++ r.
Proof.
  revert l. induction p as [|a p IH]; intros l H.
  - cbn in H. injection H as ->. reflexivity.
  - destruct l as [|c l]; [discriminate H|]. cbn in H.
    destruct (Ascii.eqb_spec a c) as [->|]; [|discriminate H].
    cbn [app]. f_equal. apply IH. exact H.
Qed.

Lemma countClass_split (class : ascii -> bool) (most : nat) (l : list ascii) :
  exists id rest,
    l = id ++ rest /\ List.length id = ArchiveSearchService.countClass class most l /\
    forallb class id = true /\ firstn (List.length id) l = id.
Proof.
  revert l. induction most as [|m IH]; intros l.
  - exists [], l. destruct l; auto.
  - destruct l as [|c l]; [exists [], []; auto|].
    cbn [ArchiveSearchService.countClass]. destruct (class c) eqn:C.
    + destruct (IH l) as [id [rest (E & L & F & P)]].
      exists (c :: id), rest. cbn. rewrite C, L, F. cbn [andb].
      split; [f_equal; exact E|]. split; [reflexivity|]. split; [reflexivity|].
      f_equal. rewrite <- L. exact P.
    + exists [], (c :: l). auto.
Qed.

Lemma countClass_le (class : ascii -> bool) (most : nat) (l : list ascii) :
  ArchiveSearchService.countClass class most l <= most.
Proof.
  revert l. induction most as [|m IH]; intros [|c l]; cbn; try lia.
  destruct (class c); [specialize (IH l)|]; lia.
Qed.

Lemma firstn_exact {A : Type} (u rest : list A) : firstn (List.length u) (u ++ rest) = u.
Proof.
  induction u as [|a u IH]; cbn; [destruct rest; reflexivity|]. f_equal. exact IH.
Qed.

(** What the pattern matches at the start of a text is an archive URL. *)
Lemma archiveMatch_shape (l : list ascii) (n : nat) :
  ArchiveSearchService.archiveMatchLength l = Some n -> archiveUrlShape (firstn n l).
Proof.
  unfold ArchiveSearchService.archiveMatchLength.
  destruct (ArchiveSearchService.stripPrefix (JS.chars "http") l) as [r1|] eqn:E1;
    [|discriminate].
  apply stripPrefix_some in E1.
  assert (S2 : exists scheme r2 n2,
             (scheme = JS.chars "http" \/ scheme = JS.chars "https") /\
             l = scheme ++ r2 /\ n2 = List.length scheme /\
             (let '(r, k) :=
                match ArchiveSearchService.stripPrefix (JS.chars "s") r1 with
                | Some r => (r, 5)
                | None => (r1, 4)
                end in (r, k)) = (r2, n2)).
  { destruct (ArchiveSearchService.stripPrefix (JS.chars "s") r1) as [r|] eqn:E2.
    - apply stripPrefix_some in E2. exists (JS.chars "https"), r, 5.
      split; [auto|]. split; [rewrite E1, E2; reflexivity|]. auto.
    - exists (JS.chars "http"), r1, 4. auto. }
  destruct S2 as [scheme [r2 [n2 (Hs & El & En2 & Epair)]]].
  destruct (match ArchiveSearchService.stripPrefix (JS.chars "s") r1 with
            | Some r => (r, 5)
            | None => (r1, 4)
            end) as [r2' n2'].
  injection Epair as -> ->.
  destruct (ArchiveSearchService.stripPrefix (JS.chars "://archive.") r2) as [r3|] eqn:E3;
    [|discriminate].
  apply stripPrefix_some in E3.
  assert (S4 : forall r4 n4,
             match ArchiveSearchService.stripPrefix (JS.chars "is") r3 with
             | Some r => Some (r, 2)
             | None =>
                 match ArchiveSearchService.stripPrefix (JS.chars "ph") r3 with
                 | Some r => Some (r, 2)
                 | None =>
                     match ArchiveSearchService.stripPrefix (JS.chars "today") r3 with
                     | Some r => Some (r, 5)
                     | None => None
                     end
                 end
             end = Some (r4, n4) ->
             exists host,
               (host = JS.chars "is" \/ host = JS.chars "ph" \/ host = JS.chars "today") /\
               r3 = host ++ r4 /\ n4 = List.length host).
  { intros r4 n4.
    destruct (ArchiveSearchService.stripPrefix (JS.chars "is") r3) as [r|] eqn:H1.
    - intros H. injection H as <- <-. apply stripPrefix_some in H1.
      exists (JS.chars "is"). auto.
    - destruct (ArchiveSearchService.stripPrefix (JS.chars "ph") r3) as [r|] eqn:H2.
      + intros H. injection H as <- <-. apply stripPrefix_some in H2.
        exists (JS.chars "ph"). auto.
      + destruct (ArchiveSearchService.stripPrefix (JS.chars "today") r3) as [r|] eqn:H3;
          [|discriminate].
        intros H. injection H as <- <-. apply stripPrefix_some in H3.
        exists (JS.chars "today"). auto. }
  destruct (match ArchiveSearchService.stripPrefix (JS.chars "is") r3 with
            | Some r => Some (r, 2)
            | None => _
            end) as [[r4 n4]|]; [|discriminate].
  destruct (S4 r4 n4 eq_refl) as [host (Hh & E4 & En4)].
  destruct (ArchiveSearchService.stripPrefix (JS.chars "/") r4) as [r5|] eqn:E5;
    [|discriminate].
  apply stripPrefix_some in E5.
  pose proof (countClass_le ArchiveSearchService.isAlnum 8 r5) as C8.
  destruct (countClass_split ArchiveSearchService.isAlnum 8 r5)
    as [id [rest (E6 & L6 & F6 & _)]].
  remember (ArchiveSearchService.countClass ArchiveSearchService.isAlnum 8 r5) as n5
    eqn:En5.
  destruct (5 <=? n5) eqn:C; [|discriminate].
  intros H. injection H as <-. apply Nat.leb_le in C.
  exists scheme, host, id.
  split; [|split; [exact Hs|split; [exact Hh|split; [exact F6|lia]]]].
  clear En5. subst n5 n2 n4. rewrite El, E3, E4, E5, E6.
  replace (List.length scheme + 11 + List.length host + 1 + List.length id)
    with (List.length (scheme ++ JS.chars "://archive." ++ host ++ "/"%char :: id)).
  - replace (scheme ++ (JS.chars "://archive." ++ host ++ JS.chars "/" ++ id ++ rest))
      with ((scheme ++ JS.chars "://archive." ++ host ++ "/"%char :: id) ++ rest).
    + apply firstn_exact.
    + rewrite <- !app_assoc. reflexivity.
  - rewrite !length_app. cbn [List.length].
    change (List.length (JS.chars "://archive.")) with 11. lia.
Qed.

Lemma archiveMatches_shape (l : list ascii) (skip : nat) :
  Forall archiveUrlShape (ArchiveSearchService.archiveMatches l skip).
Proof.
  revert skip. induction l as [|c l IH]; intros skip; [constructor|].
  cbn [ArchiveSearchService.archiveMatches]. destruct skip as [|k]; [|apply IH].
  destruct (ArchiveSearchService.archiveMatchLength (c :: l)) as [n|] eqn:E; [|apply IH].
  constructor; [|apply IH]. apply archiveMatch_shape. exact E.
Qed.

Lemma newSet_In (arr : list string) (w : string) : In w (newSet arr) -> In w arr.
Proof.
  unfold newSet.
  assert (G : forall set,
             In w (fold_left (fun set w => if has set w then set else set ++ [w]) arr set)
             -> In w set \/ In w arr).
  { induction arr as [|x arr IH]; intros set H; cbn in *; [auto|].
    destruct (IH _ H) as [H1|H1]; [|auto].
    destruct (has set x); [auto|]. apply in_app_iff in H1.
    destruct H1 as [H1|[<-|[]]]; auto. }
  intros H. destruct (G [] H) as [[]|H1]. exact H1.
Qed.

Lemma NoDup_firstn_keep {A : Type} (n : nat) (l : list A) :
  NoDup l -> NoDup (firstn n l).
Proof.
  revert l. induction n as [|n IH]; intros l H; [constructor|].
  destruct l as [|a l]; [constructor|]. cbn [firstn].
  inversion H as [|x xs Hn Hd]; subst. constructor; [|apply IH; exact Hd].
  intros Hin. apply Hn. apply (firstn_incl n). exact Hin.
Qed.

(** X30: The URLs that [getTopArchiveUrls] returns for a page are distinct and at
    most [limit]; each is an [http] or [https] URL of [archive.is],
    [archive.ph] or [archive.today] with a path of five to eight letters and
    digits, and none holds [search] or [/http]. *)
Theorem archive_urls_distinct_and_shaped (content : string) (limit : nat) :
  NoDup (ArchiveSearchService.archiveUrlsIn content limit) /\
  List.length (ArchiveSearchService.archiveUrlsIn content limit) <= limit /\
  forall u,
    In u (ArchiveSearchService.archiveUrlsIn content limit) ->
    archiveUrlShape (JS.chars u) /\
    ArchiveSearchService.includes (JS.chars u) (JS.chars "search") = false /\
    ArchiveSearchService.includes (JS.chars u) (JS.chars "/http") = false.
Proof.
  unfold ArchiveSearchService.archiveUrlsIn, JS.slice. cbn [skipn].
  split; [apply NoDup_firstn_keep, newSet_NoDup|].
  split; [apply firstn_le_length|].
  intros u Hu. apply firstn_incl, newSet_In, filter_In in Hu.
  destruct Hu as [Hm Hf]. apply andb_true_iff in Hf. destruct Hf as [F1 F2].
  apply negb_true_iff in F1. apply negb_true_iff in F2.
  split; [|auto].
  apply in_map_iff in Hm. destruct Hm as [m [<- Hm]]. rewrite chars_text.
  pose proof (archiveMatches_shape (JS.chars content) 0) as S.
  rewrite Forall_forall in S. exact (S m Hm).
Qed.

(** ** The normal form of a cleaned text *)

Lemma lowered_char_class (x : ascii) :
  let c := JS.lowerChar x in
  let c' := if JS.isWordChar c || JS.isSpaceChar c then c else " "%char in
  isCleanChar c' || JS.isSpaceChar c' = true.
Proof.
  destruct x as [[] [] [] [] [] [] [] []]; reflexivity.
Qed.

Lemma clean_char_fixed (c : ascii) :
  isCleanChar c = true ->
  JS.lowerChar c = c /\
  (if JS.isWordChar c || JS.isSpaceChar c then c else " "%char) = c /\
  (JS.isSpaceChar c = true -> c = " "%char).
Proof.
  destruct c as [[] [] [] [] [] [] [] []]; intros H; try discriminate H;
    (split; [reflexivity|split; [reflexivity|intros E; try discriminate E; reflexivity]]).
Qed.

Lemma collapse_shape (l : list ascii) (inRun : bool) :
  forallb (fun c => isCleanChar c || JS.isSpaceChar c) l = true ->
  forallb isCleanChar (collapseSpaces l inRun) = true /\
  singleSpaced (collapseSpaces l inRun) = true /\
  (inRun = true -> startsTight (collapseSpaces l inRun) = true).
Proof.
  revert inRun. induction l as [|c l IH]; intros inRun H; [auto|].
  cbn [forallb] in H. apply andb_true_iff in H. destruct H as [Hc H].
  cbv beta in Hc.
  cbn [collapseSpaces]. destruct (JS.isSpaceChar c) eqn:C.
  - destruct (IH true H) as (F & S & T). destruct inRun; [auto|].
    cbn [forallb]. rewrite F. split; [reflexivity|]. split; [|discriminate].
    specialize (T eq_refl). cbn [singleSpaced].
    destruct (collapseSpaces l true) as [|b r]; [reflexivity|].
    cbn [startsTight] in T. apply negb_true_iff in T. rewrite T, andb_false_r. exact S.
  - destruct (IH false H) as (F & S & _).
    try rewrite C in Hc. rewrite orb_false_r in Hc. cbn [forallb]. rewrite Hc, F.
    split; [reflexivity|]. split.
    + cbn [singleSpaced]. destruct (collapseSpaces l false) as [|b r]; [reflexivity|].
      rewrite C. cbn [andb negb]. exact S.
    + intros _. cbn [startsTight]. rewrite C. reflexivity.
Qed.

Lemma forallb_dropSpaces (p : ascii -> bool) (l : list ascii) :
  forallb p l = true -> forallb p (JS.dropSpaces l) = true.
Proof.
  induction l as [|c l IH]; intros H; [reflexivity|].
  cbn [JS.dropSpaces]. destruct (JS.isSpaceChar c); [|exact H].
  cbn [forallb] in H. apply andb_true_iff in H. apply IH. tauto.
Qed.

Lemma forallb_trimChars (p : ascii -> bool) (l : list ascii) :
  forallb p l = true -> forallb p (JS.trimChars l) = true.
Proof.
  intros H. unfold JS.trimChars.
  rewrite forallb_rev. apply forallb_dropSpaces.
  rewrite forallb_rev. apply forallb_dropSpaces. exact H.
Qed.

Lemma cleanText_chars (s : string) :
  exists l,
    forallb (fun c => isCleanChar c || JS.isSpaceChar c) l = true /\
    JS.chars (cleanText s) = JS.trimChars (collapseSpaces l false).
Proof.
  unfold cleanText, JS.trim, JS.toLowerCase. rewrite !chars_text.
  eexists. split; [|reflexivity].
  unfold replaceNonWord. rewrite map_map. apply forallb_forall.
  intros c Hc. apply in_map_iff in Hc. destruct Hc as [x [<- _]].
  apply lowered_char_class.
Qed.

Lemma cleanText_shape (s : string) :
  forallb isCleanChar (JS.chars (cleanText s)) = true /\
  singleSpaced (JS.chars (cleanText s)) = true /\
  startsTight (JS.chars (cleanText s)) = true /\
  startsTight (rev (JS.chars (cleanText s))) = true.
Proof.
  destruct (cleanText_chars s) as [l [H ->]].
  destruct (collapse_shape l false H) as (F & S & _).
  split; [apply forallb_trimChars; exact F|].
  split; [apply trimChars_singleSpaced; exact S|apply trimChars_tight].
Qed.

(** X11: What [cleanText] returns: small letters, digits, underscores and
    spaces only, with no two characters of white space side by side and no
    white space at either end. *)
Theorem cleanText_normal_form (s : string) :
  forallb isCleanChar (JS.chars (cleanText s)) = true /\
  singleSpaced (JS.chars (cleanText s)) = true /\
  startsTight (JS.chars (cleanText s)) = true /\
  startsTight (rev (JS.chars (cleanText s))) = true.
Proof. exact (cleanText_shape s). Qed.

Lemma map_fixed {A : Type} (f : A -> A) (l : list A) :
  (forall x, In x l -> f x = x) -> map f l = l.
Proof.
  induction l as [|a l IH]; intros H; cbn; [reflexivity|].
  rewrite (H a (or_introl eq_refl)), IH; [reflexivity|].
  intros x Hx. apply H. right. exact Hx.
Qed.

Lemma collapse_fixed (l : list ascii) (inRun : bool) :
  forallb isCleanChar l = true -> singleSpaced l = true ->
  (inRun = true -> startsTight l = true) ->
  collapseSpaces l inRun = l.
Proof.
  revert inRun. induction l as [|c l IH]; intros inRun F S T; [reflexivity|].
  cbn [forallb] in F. apply andb_true_iff in F. destruct F as [Fc F].
  cbn [collapseSpaces]. destruct (JS.isSpaceChar c) eqn:C.
  - destruct inRun.
    + specialize (T eq_refl). cbn [startsTight] in T. rewrite C in T. discriminate T.
    + destruct (clean_char_fixed c Fc) as (_ & _ & E). pose proof (E C) as Ec.
      subst c. f_equal.
      apply IH; [exact F|exact (singleSpaced_tail _ _ S)|].
      intros _. destruct l as [|b l]; [reflexivity|].
      cbn [singleSpaced] in S. apply andb_true_iff in S. destruct S as [S _].
      rewrite C in S. cbn [andb] in S. cbn [startsTight]. exact S.
  - f_equal. apply IH; [exact F|exact (singleSpaced_tail _ _ S)|discriminate].
Qed.

(** X12: Cleaning is idempotent: a cleaned text is its own cleaning. *)
Theorem cleanText_idempotent (s : string) : cleanText (cleanText s) = cleanText s.
Proof.
  destruct (cleanText_shape s) as (F & S & T1 & T2).
  set (t := cleanText s) in *.
  rewrite <- (text_chars t) at 2.
  unfold cleanText at 1. unfold JS.trim, JS.toLowerCase. rewrite !chars_text.
  f_equal. rewrite forallb_forall in F.
  rewrite (map_fixed JS.lowerChar (JS.chars t));
    [|intros x Hx; apply (clean_char_fixed x (F x Hx))].
  unfold replaceNonWord.
  rewrite (map_fixed _ (JS.chars t));
    [|intros x Hx; apply (clean_char_fixed x (F x Hx))].
  rewrite collapse_fixed; [apply trim_tight; assumption| |exact S|discriminate].
  apply forallb_forall. exact F.
Qed.
